(** * go-multihash: the codec of [multihash.go] and its registry

    A shallow embedding of [src/multihash.go].  Go's [int] and [uint64]
    are [Z] (with the 64-bit wrap written out where the source does
    arithmetic), a [byte] is [Byte.byte], a [[]byte] is [list byte], a Go
    [string] is [string], and the three package-level maps are [gmap]s
    held in one [Registry] record that [init] fills before anything else
    runs.  A Go function returning [(T, error)] returns [result T]. *)

From Stdlib Require Import ZArith NArith Strings.Byte Ascii String DecimalString List Lia.
From stdpp Require Import base option list gmap strings.

Local Open Scope string_scope.
Local Open Scope Z_scope.

(** ** Outcomes of a Go call *)

Record DecodedMultihash := mkDecoded {
  Code   : Z;
  Name   : string;
  Length : Z;
  Digest : list byte
}.

(** The package's error values, [ErrInconsistentLen] with the decoded
    value it points to, and the two errors of [encoding/hex]. *)
Inductive error :=
| ErrUnknownCode
| ErrTooShort
| ErrTooLong
| ErrLenNotSupported
| ErrInvalidMultihash
| ErrInconsistentLen (dm : DecodedMultihash)
| HexErrLength
| HexInvalidByteError (c : ascii).

(** [Ok v] is [(v, nil)], [Err e] is [(zero, e)], [Panic] is a run-time
    panic (an index or a slice bound out of range). *)
Inductive result (A : Type) :=
| Ok (v : A)
| Err (e : error)
| Panic.
Arguments Ok {A} v.
Arguments Err {A} e.
Arguments Panic {A}.

(** [v, err := f(); if err != nil { return zero, err }; ...] is stdpp's
    [v ← f; ...] at [result]. *)
#[export] Instance result_bind : MBind result := fun A B k m =>
  match m with
  | Ok v => k v
  | Err e => Err e
  | Panic => Panic
  end.

(** ** Go primitives used by the source *)

Module Go.

(** [len(buf)], an [int]. *)
Definition len {A} (buf : list A) : Z := Z.of_nat (length buf).

(** [buf[i]]: panics out of range. *)
Definition index {A} (buf : list A) (i : nat) : result A :=
  match buf !! i with
  | Some b => Ok b
  | None => Panic
  end.

(** [buf[i:]]: panics when [i > len(buf)]. *)
Definition slice_from {A} (buf : list A) (i : nat) : result (list A) :=
  if (i <=? length buf)%nat then Ok (drop i buf) else Panic.

(** [int(uint8(b))] for a byte [b]. *)
Definition int_of_byte (b : byte) : Z := Z.of_N (Byte.to_N b).

(** [byte(uint8(n))] for an [int] [n]: the low 8 bits. *)
Definition uint8 (n : Z) : byte :=
  match Byte.of_N (Z.to_N (n mod 256)) with
  | Some b => b
  | None => x00
  end.

(** uint64 arithmetic wraps. *)
Definition wrap64 (n : Z) : Z := n mod 2 ^ 64.

(** [fmt.Sprintf("%d", n)]. *)
Definition fmt_d (n : Z) : string := NilZero.string_of_int (Z.to_int n).

(** [m[k]] on a map: the zero value of the element type on a miss. *)
Definition map_get `{Countable K} {V} (zero : V) (m : gmap K V) (k : K) : V :=
  default zero (m !! k).

(** [_, ok := m[k]]. *)
Definition map_has `{Countable K} {V} (m : gmap K V) (k : K) : bool :=
  bool_decide (is_Some (m !! k)).

(** [for c := lo; c <= hi; c++ { body }] over a [uint64] counter; the
    fuel bounds the number of iterations. *)
Fixpoint for_le {St} (fuel : nat) (c hi : Z) (body : Z -> St -> St) (s : St) : St :=
  match fuel with
  | O => s
  | S fuel' =>
      if c <=? hi then for_le fuel' (wrap64 (c + 1)) hi body (body c s) else s
  end.

End Go.

(** ** The registry: constants, the three maps and [init] *)

Definition SHA1 : Z := 0x11.
Definition SHA2_256 : Z := 0x12.
Definition SHA2_512 : Z := 0x13.
Definition SHA3 : Z := 0x14.
Definition BLAKE2B_MIN : Z := 0xb201.
Definition BLAKE2B_MAX : Z := 0xb240.
Definition BLAKE2S_MIN : Z := 0xb241.
Definition BLAKE2S_MAX : Z := 0xb260.
Definition DBL_SHA2_256 : Z := 0x56.

Record Registry := mkRegistry {
  Names : gmap string Z;
  Codes : gmap Z string;
  DefaultLengths : gmap Z Z
}.

(** The map literals of the [var] declarations. *)
Definition static_registry : Registry := {|
  Names := <["sha1" := SHA1]> (<["sha2-256" := SHA2_256]> (<["sha2-512" := SHA2_512]>
           (<["sha3" := SHA3]> (<["dbl-sha2-256" := DBL_SHA2_256]> ∅))));
  Codes := <[SHA1 := "sha1"]> (<[SHA2_256 := "sha2-256"]> (<[SHA2_512 := "sha2-512"]>
           (<[SHA3 := "sha3"]> (<[DBL_SHA2_256 := "dbl-sha2-256"]> ∅))));
  DefaultLengths := <[SHA1 := 20]> (<[SHA2_256 := 32]> (<[SHA2_512 := 64]>
           (<[SHA3 := 64]> (<[DBL_SHA2_256 := 32]> ∅))))
|}.

(** The body shared by the two loops of [init]:
    [n := c - MIN + 1; name := Sprintf(family-%d, n*8);
     Names[name] = c; Codes[c] = name; DefaultLengths[c] = n].
    The counter [c] and [n] are [uint64] and the maps hold [int]; every
    value stored is below [2^63], where the two types agree. *)
Definition family_n (min c : Z) : Z := Go.wrap64 (Go.wrap64 (c - min) + 1).

Definition family_name (family : string) (min c : Z) : string :=
  family +:+ "-" +:+ Go.fmt_d (Go.wrap64 (family_n min c * 8)).

Definition add_code (family : string) (min c : Z) (r : Registry) : Registry :=
  let n := family_n min c in
  let name := family_name family min c in
  {| Names := <[name := c]> (Names r);
     Codes := <[c := name]> (Codes r);
     DefaultLengths := <[c := n]> (DefaultLengths r) |}.

Definition init (r : Registry) : Registry :=
  let r := Go.for_le 64 BLAKE2B_MIN BLAKE2B_MAX (add_code "blake2b" BLAKE2B_MIN) r in
  Go.for_le 32 BLAKE2S_MIN BLAKE2S_MAX (add_code "blake2s" BLAKE2S_MIN) r.

(** The registry every exported function sees. *)
Definition registry : Registry := init static_registry.

(** ** [encoding/hex] *)

(** Go's [encoding/hex] is called by [HexString] and [FromHexString] and
    is not part of [src/]; its two functions are modelled here. *)
Module Hex.

(** Modelled from the spec: the digits of [hex.EncodeToString], which is
    not under [src/]; the encoding is lowercase hexadecimal. *)
Definition hextable : string := "0123456789abcdef".

(** Modelled from the spec: [hextable[i]], the digit of a 4-bit value. *)
Definition digit (i : Z) : ascii :=
  match String.get (Z.to_nat i) hextable with
  | Some c => c
  | None => "0"%char
  end.

(** Modelled from the spec: [hex.EncodeToString], which is not under
    [src/]: two lowercase digits per byte, [hextable[v>>4]] then
    [hextable[v&0x0f]], so [2 * len(src)] characters. *)
Fixpoint EncodeToString (src : list byte) : string :=
  match src with
  | [] => ""
  | v :: src' =>
      String (digit (Z.shiftr (Go.int_of_byte v) 4))
        (String (digit (Z.land (Go.int_of_byte v) 0x0f)) (EncodeToString src'))
  end.

(** The byte value of a character. *)
Definition ord (c : ascii) : Z := Z.of_N (N_of_ascii c).

(** Modelled from the spec: the value of one hexadecimal digit, in
    either case; any other character is invalid. *)
Definition fromHexChar (c : ascii) : option Z :=
  if (ord "0" <=? ord c) && (ord c <=? ord "9") then Some (ord c - ord "0")
  else if (ord "a" <=? ord c) && (ord c <=? ord "f") then Some (ord c - ord "a" + 10)
  else if (ord "A" <=? ord c) && (ord c <=? ord "F") then Some (ord c - ord "A" + 10)
  else None.

(** Modelled from the spec: [hex.DecodeString], which is not under
    [src/]: it fails on an invalid character and on an odd length, and
    otherwise packs each pair of digits into the byte [(a << 4) | b]. *)
Fixpoint DecodeString (s : string) : result (list byte) :=
  match s with
  | "" => Ok []
  | String p "" =>
      match fromHexChar p with
      | None => Err (HexInvalidByteError p)
      | Some _ => Err HexErrLength
      end
  | String p (String q s') =>
      match fromHexChar p, fromHexChar q with
      | None, _ => Err (HexInvalidByteError p)
      | Some _, None => Err (HexInvalidByteError q)
      | Some a, Some b =>
          dst ← DecodeString s';
          Ok (Go.uint8 (Z.lor (Z.shiftl a 4) b) :: dst)
      end
  end.

End Hex.

(** ** The codec *)

Definition Multihash := list byte.

Section Codec.

(** The package-level maps, as the functions below find them. *)
Variable R : Registry.

(** [AppCode]: [code >= 0 && code < 0x10]. *)
Definition AppCode (code : Z) : bool := (code >=? 0) && (code <? 0x10).

(** [ValidCode]: an application code, or a key of [Codes]. *)
Definition ValidCode (code : Z) : bool :=
  if AppCode code then true
  else if Go.map_has (Codes R) code then true
  else false.

(** [Decode]: the two length guards, then the fields read off the
    buffer, then the consistency check. *)
Definition Decode (buf : list byte) : result DecodedMultihash :=
  if Go.len buf <? 3 then Err ErrTooShort
  else if Go.len buf >? 129 then Err ErrTooLong
  else
    b0 ← Go.index buf 0;
    b1 ← Go.index buf 1;
    digest ← Go.slice_from buf 2;
    let dm := {| Code := Go.int_of_byte b0;
                 Name := Go.map_get "" (Codes R) (Go.int_of_byte b0);
                 Length := Go.int_of_byte b1;
                 Digest := digest |} in
    if negb (Go.len (Digest dm) =? Length dm) then Err (ErrInconsistentLen dm)
    else Ok dm.

(** [Cast]: [Decode], then [ValidCode] on the decoded code; the buffer
    itself is the result. *)
Definition Cast (buf : list byte) : result Multihash :=
  dm ← Decode buf;
  if negb (ValidCode (Code dm)) then Err ErrUnknownCode
  else Ok buf.

(** [Encode]: [pre := make([]byte, 2)], its two bytes set, then
    [append(pre, buf...)]. *)
Definition Encode (buf : list byte) (code : Z) : result (list byte) :=
  if negb (ValidCode code) then Err ErrUnknownCode
  else if Go.len buf >? 127 then Err ErrLenNotSupported
  else
    let pre := replicate 2 x00 in
    let pre := <[0%nat := Go.uint8 code]> pre in
    let pre := <[1%nat := Go.uint8 (Go.len buf)]> pre in
    Ok (pre ++ buf)%list.

(** [EncodeName]: [Encode(buf, Names[name])]. *)
Definition EncodeName (buf : list byte) (name : string) : result (list byte) :=
  Encode buf (Go.map_get 0 (Names R) name).

Definition HexString (m : Multihash) : string := Hex.EncodeToString m.

Definition FromHexString (s : string) : result Multihash :=
  b ← Hex.DecodeString s;
  Cast b.

End Codec.

(** The value [Decode] builds from the first two bytes and the rest of
    a buffer (the [dm] of the source), named for the statements below. *)
Definition decoded (R : Registry) (b0 b1 : byte) (digest : list byte) : DecodedMultihash :=
  {| Code := Go.int_of_byte b0;
     Name := Go.map_get "" (Codes R) (Go.int_of_byte b0);
     Length := Go.int_of_byte b1;
     Digest := digest |}.

(** ** Base-58 text *)

(** What a function with [defer func() { recover() ... }()] hands back:
    the value or the error its body returned, or, when the body panicked,
    the recovered panic value as the error ([err = e.(error)]; a run-time
    panic value is an [error]). *)
Inductive recovered (A : Type) :=
| Returned (v : A)
| Failed (e : error)
| Recovered.
Arguments Returned {A} v.
Arguments Failed {A} e.
Arguments Recovered {A}.

Section B58.

(** [b58.Encode] and [b58.Decode] of the imported package
    [github.com/jbenet/go-base58], which is not part of [src/]: they are
    parameters.  [b58_Decode s = None] stands for a call that panics. *)
Variable b58_Encode : list byte -> string.
Variable b58_Decode : string -> option (list byte).
Variable R : Registry.

Definition B58String (m : Multihash) : string := b58_Encode m.

(** The body of [FromB58String], before the deferred handler runs. *)
Definition FromB58String_body (s : string) : result Multihash :=
  match b58_Decode s with
  | None => Panic
  | Some b =>
      if Go.len b =? 0 then Err ErrInvalidMultihash
      else Cast R b
  end.

Definition FromB58String (s : string) : recovered Multihash :=
  match FromB58String_body s with
  | Ok m => Returned m
  | Err e => Failed e
  | Panic => Recovered
  end.

End B58.

(** * Properties *)

(** ** The source's own examples, evaluated *)

Example registry_b201 : Codes registry !! 0xb201 = Some "blake2b-8".
Proof. vm_compute. reflexivity. Qed.
Example registry_b260 : Codes registry !! 0xb260 = Some "blake2s-256".
Proof. vm_compute. reflexivity. Qed.
Example registry_99 : Codes registry !! 0x99 = None.
Proof. vm_compute. reflexivity. Qed.
Example registry_names : Names registry !! "blake2b-512" = Some 0xb240.
Proof. vm_compute. reflexivity. Qed.
Example fmt_d_256 : "blake2b-" +:+ Go.fmt_d ((31 + 1) * 8) = "blake2b-256".
Proof. reflexivity. Qed.
Example encode_sha1 :
  Encode registry [xaa; xbb; xcc; xdd] 0x11 = Ok [x11; x04; xaa; xbb; xcc; xdd].
Proof. vm_compute. reflexivity. Qed.
Example hex_sha1 : HexString [x11; x04; xaa; xbb; xcc; xdd] = "1104aabbccdd".
Proof. vm_compute. reflexivity. Qed.
Example decode_sha1 :
  Decode registry [x11; x04; xaa; xbb; xcc; xdd]
  = Ok {| Code := 0x11; Name := "sha1"; Length := 4; Digest := [xaa; xbb; xcc; xdd] |}.
Proof. vm_compute. reflexivity. Qed.
Example decode_inconsistent :
  Decode registry [x11; x05; x01; x02]
  = Err (ErrInconsistentLen
          {| Code := 0x11; Name := "sha1"; Length := 5; Digest := [x01; x02] |}).
Proof. vm_compute. reflexivity. Qed.
Example from_hex_upper : FromHexString registry "1104AABBCCDD" = Ok [x11; x04; xaa; xbb; xcc; xdd].
Proof. vm_compute. reflexivity. Qed.
Example from_hex_odd : FromHexString registry "110" = Err HexErrLength.
Proof. vm_compute. reflexivity. Qed.
Example cast_two_99 : Cast registry [x99; x00] = Err ErrTooShort.
Proof. vm_compute. reflexivity. Qed.
Example encode_name_unknown : EncodeName registry [x01] "nope" = Ok [x00; x01; x01].
Proof. vm_compute. reflexivity. Qed.

(** ** Facts about the Go primitives *)

Section GoFacts.

Lemma int_of_byte_range (b : byte) : 0 <= Go.int_of_byte b <= 255.
Proof.
  unfold Go.int_of_byte. pose proof (Byte.to_N_bounded b). lia.
Qed.

Lemma uint8_int_of_byte (b : byte) : Go.uint8 (Go.int_of_byte b) = b.
Proof.
  unfold Go.uint8. pose proof (int_of_byte_range b) as Hb.
  rewrite Z.mod_small by lia.
  unfold Go.int_of_byte. rewrite N2Z.id, Byte.of_to_N. reflexivity.
Qed.

Lemma int_of_byte_uint8 (n : Z) : Go.int_of_byte (Go.uint8 n) = n mod 256.
Proof.
  unfold Go.uint8, Go.int_of_byte.
  pose proof (Z.mod_pos_bound n 256 ltac:(lia)) as Hm.
  destruct (Byte.of_N (Z.to_N (n mod 256))) as [b|] eqn:Hof.
  - apply Byte.to_of_N in Hof. rewrite Hof. lia.
  - apply Byte.of_N_None_iff in Hof. lia.
Qed.

Lemma len_cons {A} (x : A) (l : list A) : Go.len (x :: l) = Go.len l + 1.
Proof. unfold Go.len. cbn [length]. lia. Qed.

Lemma len_nonneg {A} (l : list A) : 0 <= Go.len l.
Proof. unfold Go.len. lia. Qed.

Lemma len_nil_inv {A} (l : list A) : Go.len l = 0 -> l = [].
Proof. destruct l; [reflexivity | rewrite len_cons; pose proof (len_nonneg l); lia]. Qed.

Lemma map_has_true `{Countable K} {V} (m : gmap K V) (k : K) :
  Go.map_has m k = true <-> is_Some (m !! k).
Proof. unfold Go.map_has. apply bool_decide_eq_true. Qed.

Lemma map_has_false `{Countable K} {V} (m : gmap K V) (k : K) :
  Go.map_has m k = false <-> m !! k = None.
Proof.
  unfold Go.map_has. rewrite bool_decide_eq_false, <- eq_None_not_Some. reflexivity.
Qed.

End GoFacts.

(** ** [AppCode], [ValidCode] and [Encode] *)

Section EncodeFacts.

Variable R : Registry.

Lemma AppCode_spec (c : Z) : AppCode c = true <-> 0 <= c < 16.
Proof.
  unfold AppCode. rewrite andb_true_iff, Z.geb_le, Z.ltb_lt. lia.
Qed.

Lemma ValidCode_true (c : Z) :
  ValidCode R c = true <-> 0 <= c < 16 \/ is_Some (Codes R !! c).
Proof.
  unfold ValidCode.
  destruct (AppCode c) eqn:Happ.
  - apply AppCode_spec in Happ. tauto.
  - assert (~ 0 <= c < 16) as Hn
      by (intros Hc; apply AppCode_spec in Hc; congruence).
    destruct (Go.map_has (Codes R) c) eqn:Hhas.
    + apply map_has_true in Hhas. tauto.
    + apply map_has_false in Hhas. split; [discriminate|].
      intros [Hc | [x Hx]]; [tauto | congruence].
Qed.

Lemma ValidCode_false (c : Z) :
  ValidCode R c = false <-> ~ 0 <= c < 16 /\ Codes R !! c = None.
Proof.
  rewrite <- not_true_iff_false, ValidCode_true.
  destruct (Codes R !! c) as [name|] eqn:Hc.
  - split; [intros Hn; exfalso; apply Hn; right; eauto | intros [_ ?]; discriminate].
  - split; [intros Hn; split; [tauto | reflexivity] |].
    intros [Hn _] [Happ | [x Hx]]; [tauto | discriminate].
Qed.

Lemma Encode_valid (d : list byte) (c : Z) :
  ValidCode R c = true -> Go.len d <= 127 ->
  Encode R d c = Ok (Go.uint8 c :: Go.uint8 (Go.len d) :: d).
Proof.
  intros Hv Hlen. unfold Encode. rewrite Hv. cbn [negb].
  rewrite Z.gtb_ltb. destruct (Z.ltb_spec 127 (Go.len d)); [lia | reflexivity].
Qed.

Lemma Encode_invalid (d : list byte) (c : Z) :
  ValidCode R c = false -> Encode R d c = Err ErrUnknownCode.
Proof. intros Hv. unfold Encode. rewrite Hv. reflexivity. Qed.

Lemma Encode_too_long (d : list byte) (c : Z) :
  ValidCode R c = true -> Go.len d > 127 -> Encode R d c = Err ErrLenNotSupported.
Proof.
  intros Hv Hlen. unfold Encode. rewrite Hv. cbn [negb].
  rewrite Z.gtb_ltb. destruct (Z.ltb_spec 127 (Go.len d)); [reflexivity | lia].
Qed.

End EncodeFacts.

(** C4. For every digest [d] of at most 127 bytes and every valid code
    [c], [Encode d c] succeeds with two header bytes followed by [d]
    unchanged; the first header byte has the value [c mod 256], the second
    [len(d) mod 256].  In particular the four-byte digest AA BB CC DD under
    code 0x11 encodes to 11 04 AA BB CC DD. *)
Theorem Encode_wire_format (R : Registry) (d : list byte) (c : Z) :
  Go.len d <= 127 -> ValidCode R c = true ->
  (exists b0 b1 : byte,
      Encode R d c = Ok (b0 :: b1 :: d) /\
      Go.int_of_byte b0 = c mod 256 /\
      Go.int_of_byte b1 = Go.len d mod 256) /\
  Encode registry [xaa; xbb; xcc; xdd] 0x11 = Ok [x11; x04; xaa; xbb; xcc; xdd].
Proof.
  intros Hlen Hv. split.
  - exists (Go.uint8 c), (Go.uint8 (Go.len d)).
    rewrite !int_of_byte_uint8. auto using Encode_valid.
  - vm_compute. reflexivity.
Qed.

Lemma Encode_wire_format_witness :
  exists b0 b1 : byte,
    Encode registry [x01; x02; x03] BLAKE2B_MAX = Ok [b0; b1; x01; x02; x03] /\
    Go.int_of_byte b0 = 0x40 /\ Go.int_of_byte b1 = 3.
Proof.
  apply (Encode_wire_format registry [x01; x02; x03] BLAKE2B_MAX).
  - vm_compute. discriminate.
  - vm_compute. reflexivity.
Defined.

(** C7. [Encode d c] fails with [ErrUnknownCode] whenever [c] is neither
    in [0,16) nor a key of [Codes]; for a valid [c] it fails with
    [ErrLenNotSupported] whenever [len(d) > 127] and succeeds when
    [len(d) = 127]; it never panics and it fails in no other way. *)
Theorem Encode_failure_modes (R : Registry) (d : list byte) (c : Z) :
  (~ 0 <= c < 16 -> Codes R !! c = None -> Encode R d c = Err ErrUnknownCode) /\
  (ValidCode R c = true -> Go.len d > 127 -> Encode R d c = Err ErrLenNotSupported) /\
  (ValidCode R c = true -> Go.len d = 127 -> exists out, Encode R d c = Ok out) /\
  Encode R d c <> Panic /\
  (forall e, Encode R d c = Err e ->
     (e = ErrUnknownCode /\ ~ 0 <= c < 16 /\ Codes R !! c = None) \/
     (e = ErrLenNotSupported /\ ValidCode R c = true /\ Go.len d > 127)).
Proof.
  repeat split.
  - intros Happ Hcode. apply Encode_invalid, ValidCode_false. auto.
  - apply Encode_too_long.
  - intros Hv Hlen. eexists. apply Encode_valid; [assumption | lia].
  - destruct (ValidCode R c) eqn:Hv.
    + destruct (Z_le_gt_dec (Go.len d) 127) as [Hle | Hgt].
      * rewrite Encode_valid by assumption. discriminate.
      * rewrite Encode_too_long by assumption. discriminate.
    + rewrite Encode_invalid by assumption. discriminate.
  - intros e He. destruct (ValidCode R c) eqn:Hv.
    + destruct (Z_le_gt_dec (Go.len d) 127) as [Hle | Hgt].
      * rewrite Encode_valid in He by assumption. discriminate.
      * rewrite Encode_too_long in He by assumption. right. split; [congruence | auto].
    + rewrite Encode_invalid in He by assumption. left.
      split; [congruence | apply ValidCode_false; assumption].
Qed.

Lemma Encode_failure_modes_witness :
  Encode registry [] 0x99 = Err ErrUnknownCode /\
  Encode registry (replicate 128 x00) SHA2_256 = Err ErrLenNotSupported /\
  exists out, Encode registry (replicate 127 x00) SHA2_256 = Ok out.
Proof.
  split; [| split].
  - apply (Encode_failure_modes registry [] 0x99).
    + lia.
    + vm_compute. reflexivity.
  - apply (Encode_failure_modes registry (replicate 128 x00) SHA2_256).
    + vm_compute. reflexivity.
    + vm_compute. reflexivity.
  - apply (Encode_failure_modes registry (replicate 127 x00) SHA2_256).
    + vm_compute. reflexivity.
    + vm_compute. reflexivity.
Defined.

(** ** [Decode] and [Cast] *)

Section DecodeFacts.

Variable R : Registry.

Lemma Decode_too_short (buf : list byte) :
  Go.len buf < 3 -> Decode R buf = Err ErrTooShort.
Proof.
  intros Hlen. unfold Decode.
  destruct (Z.ltb_spec (Go.len buf) 3); [reflexivity | lia].
Qed.

Lemma Decode_too_long (buf : list byte) :
  Go.len buf > 129 -> Decode R buf = Err ErrTooLong.
Proof.
  intros Hlen. unfold Decode.
  destruct (Z.ltb_spec (Go.len buf) 3); [lia |].
  rewrite Z.gtb_ltb. destruct (Z.ltb_spec 129 (Go.len buf)); [reflexivity | lia].
Qed.

Lemma Decode_header (b0 b1 : byte) (digest : list byte) :
  1 <= Go.len digest <= 127 ->
  Decode R (b0 :: b1 :: digest) =
    if Go.len digest =? Go.int_of_byte b1
    then Ok (decoded R b0 b1 digest)
    else Err (ErrInconsistentLen (decoded R b0 b1 digest)).
Proof.
  intros Hlen. unfold Decode. rewrite !len_cons.
  destruct (Z.ltb_spec (Go.len digest + 1 + 1) 3); [lia |].
  rewrite Z.gtb_ltb.
  destruct (Z.ltb_spec 129 (Go.len digest + 1 + 1)); [lia |].
  cbn. rewrite drop_0. unfold decoded, Go.map_get.
  destruct (Go.len digest =? Go.int_of_byte b1); reflexivity.
Qed.

Lemma len_ge_3_inv (buf : list byte) :
  3 <= Go.len buf ->
  exists b0 b1 digest,
    buf = b0 :: b1 :: digest /\ Go.len digest = Go.len buf - 2 /\ 1 <= Go.len digest.
Proof.
  intros Hlen.
  destruct buf as [|b0 [|b1 digest]]; [unfold Go.len in Hlen; cbn in Hlen; lia .. |].
  exists b0, b1, digest. rewrite !len_cons in *. repeat split; lia.
Qed.

(** [Decode] either returns a value whose fields are read off the
    buffer and whose [Length] agrees with the digest, or one of its three
    errors; it never panics. *)
Lemma Decode_cases (buf : list byte) :
  (Go.len buf < 3 /\ Decode R buf = Err ErrTooShort) \/
  (Go.len buf > 129 /\ Decode R buf = Err ErrTooLong) \/
  (exists b0 b1 digest,
      buf = b0 :: b1 :: digest /\ 1 <= Go.len digest <= 127 /\
      ((Go.len digest = Go.int_of_byte b1 /\
        Decode R buf = Ok (decoded R b0 b1 digest)) \/
       (Go.len digest <> Go.int_of_byte b1 /\
        Decode R buf = Err (ErrInconsistentLen (decoded R b0 b1 digest))))).
Proof.
  destruct (Z_lt_ge_dec (Go.len buf) 3) as [Hs | Hs];
    [left; auto using Decode_too_short |].
  destruct (Z_le_gt_dec (Go.len buf) 129) as [Hl | Hl];
    [| right; left; auto using Decode_too_long].
  right; right.
  destruct (len_ge_3_inv buf ltac:(lia)) as (b0 & b1 & digest & -> & Hd & Hd1).
  exists b0, b1, digest. split; [reflexivity |]. split; [lia |].
  rewrite Decode_header by lia.
  destruct (Z.eqb_spec (Go.len digest) (Go.int_of_byte b1)); [left | right]; auto.
Qed.

End DecodeFacts.

(** C5. For every buffer [b] with [3 <= len(b) <= 129] whose second byte
    equals [len(b) - 2], [Decode b] succeeds: [Code] is the first byte as an
    unsigned value, [Name] is the entry of [Codes] for it, or the empty
    string when there is none, [Length] is the second byte and [Digest] is
    [b[2:]]. *)
Theorem Decode_fields (R : Registry) (b : list byte) :
  3 <= Go.len b <= 129 ->
  Go.int_of_byte <$> b !! 1%nat = Some (Go.len b - 2) ->
  exists b0 b1 : byte,
    b !! 0%nat = Some b0 /\ b !! 1%nat = Some b1 /\
    Decode R b = Ok {| Code := Go.int_of_byte b0;
                       Name := match Codes R !! Go.int_of_byte b0 with
                               | Some name => name
                               | None => ""
                               end;
                       Length := Go.int_of_byte b1;
                       Digest := drop 2 b |} /\
    0 <= Go.int_of_byte b0 <= 255.
Proof.
  intros Hlen Hb1.
  destruct (len_ge_3_inv b ltac:(lia)) as (b0 & b1 & digest & -> & Hd & Hd1).
  cbn in Hb1. injection Hb1 as Hb1.
  exists b0, b1. repeat split; try apply int_of_byte_range.
  rewrite Decode_header by lia.
  destruct (Z.eqb_spec (Go.len digest) (Go.int_of_byte b1)); [reflexivity | lia].
Qed.

Lemma Decode_fields_witness :
  exists b0 b1 : byte,
    [x99; x01; xff] !! 0%nat = Some b0 /\ [x99; x01; xff] !! 1%nat = Some b1 /\
    Decode registry [x99; x01; xff]
    = Ok {| Code := Go.int_of_byte b0;
            Name := match Codes registry !! Go.int_of_byte b0 with
                    | Some name => name
                    | None => ""
                    end;
            Length := Go.int_of_byte b1;
            Digest := drop 2 [x99; x01; xff] |} /\
    0 <= Go.int_of_byte b0 <= 255.
Proof.
  apply (Decode_fields registry [x99; x01; xff]).
  - vm_compute. split; discriminate.
  - vm_compute. reflexivity.
Defined.

(** C6. [Decode] fails with [ErrTooShort] on fewer than 3 bytes, with
    [ErrTooLong] on more than 129 bytes, and, for a length in between whose
    digest count [len - 2] differs from the length byte, with
    [ErrInconsistentLen] carrying the code, name, length and digest read
    from the buffer.  It never panics and has no other failure. *)
Theorem Decode_failure_modes (R : Registry) (buf : list byte) :
  (Go.len buf < 3 -> Decode R buf = Err ErrTooShort) /\
  (Go.len buf > 129 -> Decode R buf = Err ErrTooLong) /\
  (forall b0 b1 : byte,
     3 <= Go.len buf <= 129 ->
     buf !! 0%nat = Some b0 -> buf !! 1%nat = Some b1 ->
     Go.len buf - 2 <> Go.int_of_byte b1 ->
     Decode R buf = Err (ErrInconsistentLen
                           {| Code := Go.int_of_byte b0;
                              Name := default "" (Codes R !! Go.int_of_byte b0);
                              Length := Go.int_of_byte b1;
                              Digest := drop 2 buf |})) /\
  Decode R buf <> Panic /\
  (forall e, Decode R buf = Err e ->
     (e = ErrTooShort /\ Go.len buf < 3) \/
     (e = ErrTooLong /\ Go.len buf > 129) \/
     (exists dm, e = ErrInconsistentLen dm /\ 3 <= Go.len buf <= 129 /\
                 Digest dm = drop 2 buf /\ Go.len (Digest dm) <> Length dm)).
Proof.
  split; [apply Decode_too_short |]. split; [apply Decode_too_long |].
  split; [| split].
  - intros b0 b1 Hlen H0 H1 Hne.
    destruct (len_ge_3_inv buf ltac:(lia)) as (c0 & c1 & digest & -> & Hd & Hd1).
    cbn in H0, H1. injection H0 as ->. injection H1 as ->.
    rewrite Decode_header by lia.
    destruct (Z.eqb_spec (Go.len digest) (Go.int_of_byte b1)); [lia | reflexivity].
  - destruct (Decode_cases R buf)
      as [[_ ->] | [[_ ->] | (b0 & b1 & digest & -> & _ & [[_ ->] | [_ ->]])]];
      discriminate.
  - intros e He.
    destruct (Decode_cases R buf)
      as [[Hs Hd] | [[Hl Hd] | (b0 & b1 & digest & -> & Hr & [[Hc Hd] | [Hc Hd]])]];
      rewrite Hd in He; try discriminate.
    + left. split; [congruence | assumption].
    + right; left. split; [congruence | assumption].
    + right; right. exists (decoded R b0 b1 digest).
      injection He as <-. rewrite !len_cons. cbn. repeat split; lia.
Qed.

Lemma Decode_failure_modes_witness :
  Decode registry [x11; x00] = Err ErrTooShort /\
  Decode registry (replicate 130 x00) = Err ErrTooLong /\
  Decode registry [x11; x05; x01; x02]
  = Err (ErrInconsistentLen
           {| Code := 0x11; Name := "sha1"; Length := 5; Digest := [x01; x02] |}).
Proof.
  split; [| split].
  - apply (Decode_failure_modes registry [x11; x00]). vm_compute. reflexivity.
  - apply (Decode_failure_modes registry (replicate 130 x00)). vm_compute. reflexivity.
  - destruct (Decode_failure_modes registry [x11; x05; x01; x02]) as (_ & _ & Hinc & _).
    apply (Hinc x11 x05).
    + vm_compute. split; discriminate.
    + reflexivity.
    + reflexivity.
    + vm_compute. discriminate.
Defined.

(** C10. Whenever [Decode] succeeds, the value it returns has
    [0 <= Code <= 255], [0 <= Length <= 127] and [len(Digest) = Length]. *)
Theorem Decode_invariant (R : Registry) (buf : list byte) (dm : DecodedMultihash) :
  Decode R buf = Ok dm ->
  0 <= Code dm <= 255 /\ 0 <= Length dm <= 127 /\ Go.len (Digest dm) = Length dm.
Proof.
  intros Hd.
  destruct (Decode_cases R buf)
    as [[_ He] | [[_ He] | (b0 & b1 & digest & -> & Hr & [[Hc He] | [_ He]])]];
    rewrite He in Hd; try discriminate.
  injection Hd as <-. cbn. pose proof (int_of_byte_range b0). lia.
Qed.

Lemma Decode_invariant_witness :
  0 <= 0x11 <= 255 /\ 0 <= 4 <= 127 /\ Go.len [xaa; xbb; xcc; xdd] = 4.
Proof.
  apply (Decode_invariant registry [x11; x04; xaa; xbb; xcc; xdd]
           {| Code := 0x11; Name := "sha1"; Length := 4;
              Digest := [xaa; xbb; xcc; xdd] |}).
  vm_compute. reflexivity.
Defined.

(** ** Encoding then decoding *)

Lemma Decode_Encode (R : Registry) (d : list byte) (c : Z) :
  ValidCode R c = true -> 1 <= Go.len d <= 127 ->
  Encode R d c ≫= Decode R
  = Ok {| Code := c mod 256;
          Name := default "" (Codes R !! (c mod 256));
          Length := Go.len d;
          Digest := d |}.
Proof.
  intros Hv Hlen. rewrite Encode_valid by (assumption || lia).
  change (Decode R (Go.uint8 c :: Go.uint8 (Go.len d) :: d) = Ok
            {| Code := c mod 256; Name := default "" (Codes R !! (c mod 256));
               Length := Go.len d; Digest := d |}).
  rewrite Decode_header by assumption. unfold decoded.
  rewrite !int_of_byte_uint8, (Z.mod_small (Go.len d)) by lia.
  rewrite Z.eqb_refl. reflexivity.
Qed.

Lemma Decode_Encode_empty (R : Registry) (c : Z) :
  ValidCode R c = true -> Encode R [] c ≫= Decode R = Err ErrTooShort.
Proof.
  intros Hv. rewrite Encode_valid by (assumption || (unfold Go.len; cbn; lia)). reflexivity.
Qed.

(** C1 as stated fails on the empty digest: [Encode] accepts it and
    returns two bytes, which [Decode] rejects as too short. *)
Lemma round_trip_fails_on_empty_digest :
  ~ (Go.len (@nil byte) <= 127 -> ValidCode registry SHA1 = true ->
     exists dm, Encode registry [] SHA1 ≫= Decode registry = Ok dm /\
                Digest dm = [] /\ Length dm = Go.len (@nil byte)).
Proof.
  intros Hclaim.
  destruct Hclaim as (dm & Hdm & _).
  - vm_compute. discriminate.
  - vm_compute. reflexivity.
  - rewrite Decode_Encode_empty in Hdm by (vm_compute; reflexivity). discriminate Hdm.
Qed.

(** C1, amended. For every non-empty digest [d] of at most 127 bytes and
    every valid code [c], decoding [Encode d c] succeeds and returns
    [Digest = d] and [Length = len(d)]; for the empty digest [Encode]
    succeeds and [Decode] rejects its two-byte result with [ErrTooShort]. *)
Theorem Decode_Encode_round_trip (R : Registry) (d : list byte) (c : Z) :
  Go.len d <= 127 -> ValidCode R c = true ->
  (1 <= Go.len d ->
   exists dm, Encode R d c ≫= Decode R = Ok dm /\
              Digest dm = d /\ Length dm = Go.len d) /\
  (Go.len d = 0 ->
   (exists out, Encode R d c = Ok out) /\
   Encode R d c ≫= Decode R = Err ErrTooShort).
Proof.
  intros Hlen Hv. split.
  - intros Hpos. eexists. split; [apply Decode_Encode; [assumption | lia] |].
    split; reflexivity.
  - intros H0. apply len_nil_inv in H0 as ->. split.
    + eexists. apply Encode_valid; [assumption | unfold Go.len; cbn; lia].
    + apply Decode_Encode_empty. assumption.
Qed.

Lemma Decode_Encode_round_trip_witness :
  (exists dm, Encode registry [xaa; xbb; xcc; xdd] SHA1 ≫= Decode registry = Ok dm /\
              Digest dm = [xaa; xbb; xcc; xdd] /\
              Length dm = Go.len [xaa; xbb; xcc; xdd]) /\
  Encode registry [] SHA1 ≫= Decode registry = Err ErrTooShort.
Proof.
  split.
  - apply (Decode_Encode_round_trip registry [xaa; xbb; xcc; xdd] SHA1).
    + vm_compute. discriminate.
    + vm_compute. reflexivity.
    + vm_compute. discriminate.
  - apply (Decode_Encode_round_trip registry [] SHA1).
    + vm_compute. discriminate.
    + vm_compute. reflexivity.
    + reflexivity.
Defined.

(** ** [Cast] on the shortest inputs *)

(** C2 as stated fails: both two-byte inputs are rejected by the length
    check of [Decode] before the code is looked at. *)
Lemma Cast_two_bytes_is_too_short :
  ~ (Cast registry [x99; x00] = Err ErrUnknownCode /\
     exists v dm, Cast registry [x05; x00] = Ok v /\
                  Decode registry v = Ok dm /\ Digest dm = []).
Proof.
  intros [Hunknown _].
  assert (Hshort : Cast registry [x99; x00] = Err ErrTooShort)
    by (vm_compute; reflexivity).
  rewrite Hshort in Hunknown. discriminate Hunknown.
Qed.

(** C2, amended. [Cast] fails with [ErrTooShort] on both [[0x99, 0x00]]
    and [[0x05, 0x00]].  On three bytes with a one-byte digest,
    [Cast [0x99, 0x01, b]] fails with [ErrUnknownCode], while
    [Cast [0x05, 0x01, b]] succeeds, returns its input, and that value
    decodes to code 5, the empty name and the digest [[b]]. *)
Theorem Cast_unknown_code (b : byte) :
  Cast registry [x99; x00] = Err ErrTooShort /\
  Cast registry [x05; x00] = Err ErrTooShort /\
  Cast registry [x99; x01; b] = Err ErrUnknownCode /\
  Cast registry [x05; x01; b] = Ok [x05; x01; b] /\
  Decode registry [x05; x01; b]
  = Ok {| Code := 5; Name := ""; Length := 1; Digest := [b] |}.
Proof.
  repeat split; vm_compute; reflexivity.
Qed.

(** ** [EncodeName] on a name that is not registered *)

(** C3 as stated fails: a missing name reads as code 0 from [Names], and
    0 is an application code. *)
Lemma EncodeName_unregistered_name_succeeds :
  ~ (Names registry !! "nope" = None ->
     EncodeName registry [x01] "nope" = Err ErrUnknownCode).
Proof.
  intros Hclaim. assert (Hnone : Names registry !! "nope" = None)
    by (vm_compute; reflexivity).
  specialize (Hclaim Hnone).
  assert (Hok : EncodeName registry [x01] "nope" = Ok [x00; x01; x01])
    by (vm_compute; reflexivity).
  rewrite Hok in Hclaim. discriminate Hclaim.
Qed.

(** C3, amended. For every digest [d] and every name that is not a key
    of [Names], [EncodeName d name] is [Encode d 0]: it never fails with
    [ErrUnknownCode]; it returns the bytes [0, len(d)] followed by [d] when
    [len(d) <= 127] and fails with [ErrLenNotSupported] otherwise. *)
Theorem EncodeName_missing_name (R : Registry) (d : list byte) (name : string) :
  Names R !! name = None ->
  EncodeName R d name = Encode R d 0 /\
  EncodeName R d name <> Err ErrUnknownCode /\
  (Go.len d <= 127 ->
   EncodeName R d name = Ok (x00 :: Go.uint8 (Go.len d) :: d)) /\
  (Go.len d > 127 -> EncodeName R d name = Err ErrLenNotSupported).
Proof.
  intros Hmiss.
  assert (Hv : ValidCode R 0 = true) by (apply ValidCode_true; left; lia).
  assert (Heq : EncodeName R d name = Encode R d 0)
    by (unfold EncodeName, Go.map_get; rewrite Hmiss; reflexivity).
  rewrite Heq. repeat split.
  - destruct (Z_le_gt_dec (Go.len d) 127) as [Hle | Hgt].
    + rewrite Encode_valid by assumption. discriminate.
    + rewrite Encode_too_long by assumption. discriminate.
  - intros Hle. rewrite Encode_valid by assumption. reflexivity.
  - intros Hgt. apply Encode_too_long; assumption.
Qed.

Lemma EncodeName_missing_name_witness :
  EncodeName registry [xaa; xbb] "md5" = Ok [x00; x02; xaa; xbb].
Proof.
  apply (EncodeName_missing_name registry [xaa; xbb] "md5").
  - vm_compute. reflexivity.
  - vm_compute. discriminate.
Defined.

(** ** Hexadecimal text *)

Section HexFacts.

(** One byte through its two digits and back. *)
Lemma hex_byte_round_trip (v : byte) :
  let hi := Z.shiftr (Go.int_of_byte v) 4 in
  let lo := Z.land (Go.int_of_byte v) 0x0f in
  Hex.fromHexChar (Hex.digit hi) = Some hi /\
  Hex.fromHexChar (Hex.digit lo) = Some lo /\
  Go.uint8 (Z.lor (Z.shiftl hi 4) lo) = v.
Proof. destruct v; vm_compute; auto. Qed.

Lemma hex_digit_lowercase (v : byte) :
  In (Hex.digit (Z.shiftr (Go.int_of_byte v) 4)) (list_ascii_of_string Hex.hextable) /\
  In (Hex.digit (Z.land (Go.int_of_byte v) 0x0f)) (list_ascii_of_string Hex.hextable).
Proof. destruct v; vm_compute; intuition. Qed.

Lemma DecodeString_EncodeToString (src : list byte) :
  Hex.DecodeString (Hex.EncodeToString src) = Ok src.
Proof.
  induction src as [|v src IH]; [reflexivity |].
  destruct (hex_byte_round_trip v) as (Hhi & Hlo & Hv).
  cbn [Hex.EncodeToString Hex.DecodeString].
  rewrite Hhi, Hlo, IH. cbn. rewrite Hv. reflexivity.
Qed.

Lemma EncodeToString_length (src : list byte) :
  String.length (Hex.EncodeToString src) = (2 * length src)%nat.
Proof.
  induction src as [|v src IH]; [reflexivity |].
  cbn [Hex.EncodeToString String.length length]. rewrite IH. lia.
Qed.

Lemma EncodeToString_lowercase (src : list byte) :
  Forall (fun c => In c (list_ascii_of_string Hex.hextable))
         (list_ascii_of_string (Hex.EncodeToString src)).
Proof.
  induction src as [|v src IH]; [constructor |].
  destruct (hex_digit_lowercase v) as [Hhi Hlo].
  cbn [Hex.EncodeToString list_ascii_of_string].
  constructor; [exact Hhi |]. constructor; [exact Hlo | exact IH].
Qed.

Lemma FromHexString_HexString (R : Registry) (v : Multihash) :
  FromHexString R (HexString v) = Cast R v.
Proof.
  unfold FromHexString, HexString. rewrite DecodeString_EncodeToString. reflexivity.
Qed.

Lemma Cast_returns_input (R : Registry) (buf v : list byte) :
  Cast R buf = Ok v -> v = buf.
Proof.
  unfold Cast. destruct (Decode R buf) as [dm | e |]; cbn; try discriminate.
  destruct (ValidCode R (Code dm)); cbn; [| discriminate].
  intros Hok. injection Hok as <-. reflexivity.
Qed.

End HexFacts.

(** C8. For every byte sequence [v] that [Cast] accepts,
    [FromHexString (HexString v)] succeeds and returns [v]; [HexString v]
    has exactly [2 * len(v)] characters, each one of [0123456789abcdef]. *)
Theorem hex_round_trip (R : Registry) (v : Multihash) :
  (exists m, Cast R v = Ok m) ->
  FromHexString R (HexString v) = Ok v /\
  String.length (HexString v) = (2 * length v)%nat /\
  Forall (fun c => In c (list_ascii_of_string "0123456789abcdef"))
         (list_ascii_of_string (HexString v)).
Proof.
  intros [m Hcast]. split; [| split].
  - rewrite FromHexString_HexString, Hcast.
    apply Cast_returns_input in Hcast as ->. reflexivity.
  - apply EncodeToString_length.
  - apply EncodeToString_lowercase.
Qed.

Lemma hex_round_trip_witness :
  FromHexString registry (HexString [x11; x04; xaa; xbb; xcc; xdd])
  = Ok [x11; x04; xaa; xbb; xcc; xdd] /\
  String.length (HexString [x11; x04; xaa; xbb; xcc; xdd]) = (2 * 6)%nat /\
  Forall (fun c => In c (list_ascii_of_string "0123456789abcdef"))
         (list_ascii_of_string (HexString [x11; x04; xaa; xbb; xcc; xdd])).
Proof.
  apply (hex_round_trip registry [x11; x04; xaa; xbb; xcc; xdd]).
  exists [x11; x04; xaa; xbb; xcc; xdd]. vm_compute. reflexivity.
Defined.

(** ** The generated families of [init] *)

Section InitFacts.

Variables (family : string) (min : Z).
Hypothesis min_nonneg : 0 <= min.

Lemma wrap64_small (n : Z) : 0 <= n < 2 ^ 64 -> Go.wrap64 n = n.
Proof. intros Hn. unfold Go.wrap64. apply Z.mod_small, Hn. Qed.

Lemma family_n_offset (c : Z) :
  min <= c -> c - min < 2 ^ 64 - 1 -> family_n min c = c - min + 1.
Proof.
  intros Hlo Hhi. unfold family_n.
  rewrite (wrap64_small (c - min)) by lia. rewrite wrap64_small by lia. reflexivity.
Qed.

(** The loop invariant: once the loop has run from [c] to [hi], every
    code in that range carries its generated name and length, and every
    other code is as it was. *)
Lemma for_le_add_code (fuel : nat) :
  forall (c hi : Z) (r : Registry) (x : Z),
    min <= c -> hi < 2 ^ 64 - 1 -> hi + 1 - c <= Z.of_nat fuel ->
    let r' := Go.for_le fuel c hi (add_code family min) r in
    Codes r' !! x =
      (if (c <=? x) && (x <=? hi) then Some (family_name family min x)
       else Codes r !! x) /\
    DefaultLengths r' !! x =
      (if (c <=? x) && (x <=? hi) then Some (family_n min x)
       else DefaultLengths r !! x).
Proof.
  induction fuel as [|fuel IH]; intros c hi r x Hmin Hhi Hfuel; cbn zeta.
  - cbn [Go.for_le].
    destruct (Z.leb_spec c x), (Z.leb_spec x hi); cbn [andb]; auto; lia.
  - cbn [Go.for_le]. destruct (Z.leb_spec c hi) as [Hle | Hgt].
    + rewrite wrap64_small by lia.
      destruct (IH (c + 1) hi (add_code family min c r) x
                  ltac:(lia) Hhi ltac:(lia)) as [HC HD].
      cbn zeta in HC, HD. rewrite HC, HD. cbn [add_code Codes DefaultLengths].
      destruct (Z.eq_dec c x) as [-> | Hne].
      * rewrite !lookup_insert_eq.
        destruct (Z.leb_spec (x + 1) x), (Z.leb_spec x x), (Z.leb_spec x hi);
          cbn [andb]; auto; lia.
      * rewrite !lookup_insert_ne by exact Hne.
        destruct (Z.leb_spec (c + 1) x), (Z.leb_spec c x), (Z.leb_spec x hi);
          cbn [andb]; auto; lia.
    + destruct (Z.leb_spec c x), (Z.leb_spec x hi); cbn [andb]; auto; lia.
Qed.

(** More fuel than the range needs changes nothing: the loop ends on
    its condition. *)
Lemma for_le_fuel (fuel : nat) :
  forall (c hi : Z) (r : Registry),
    min <= c -> hi < 2 ^ 64 - 1 -> hi + 1 - c <= Z.of_nat fuel ->
    Go.for_le (S fuel) c hi (add_code family min) r
    = Go.for_le fuel c hi (add_code family min) r.
Proof.
  induction fuel as [|fuel IH]; intros c hi r Hmin Hhi Hfuel.
  - cbn [Go.for_le]. destruct (Z.leb_spec c hi); [lia | reflexivity].
  - change (Go.for_le (S (S fuel)) c hi (add_code family min) r)
      with (if c <=? hi
            then Go.for_le (S fuel) (Go.wrap64 (c + 1)) hi (add_code family min)
                   (add_code family min c r)
            else r).
    cbn [Go.for_le]. destruct (Z.leb_spec c hi) as [Hle | Hgt]; [| reflexivity].
    rewrite wrap64_small by lia.
    specialize (IH (c + 1) hi (add_code family min c r) ltac:(lia) Hhi ltac:(lia)).
    cbn [Go.for_le] in IH. exact IH.
Qed.

End InitFacts.

(** The two tables of [registry] that [init] extends, code by code. *)
Lemma registry_lookup (x : Z) :
  Codes registry !! x =
    (if (BLAKE2S_MIN <=? x) && (x <=? BLAKE2S_MAX)
     then Some (family_name "blake2s" BLAKE2S_MIN x)
     else if (BLAKE2B_MIN <=? x) && (x <=? BLAKE2B_MAX)
     then Some (family_name "blake2b" BLAKE2B_MIN x)
     else Codes static_registry !! x) /\
  DefaultLengths registry !! x =
    (if (BLAKE2S_MIN <=? x) && (x <=? BLAKE2S_MAX)
     then Some (family_n BLAKE2S_MIN x)
     else if (BLAKE2B_MIN <=? x) && (x <=? BLAKE2B_MAX)
     then Some (family_n BLAKE2B_MIN x)
     else DefaultLengths static_registry !! x).
Proof.
  unfold registry, init.
  set (r1 := Go.for_le 64 BLAKE2B_MIN BLAKE2B_MAX (add_code "blake2b" BLAKE2B_MIN)
               static_registry).
  destruct (for_le_add_code "blake2s" BLAKE2S_MIN ltac:(unfold BLAKE2S_MIN; lia)
              32 BLAKE2S_MIN BLAKE2S_MAX r1 x ltac:(lia)
              ltac:(unfold BLAKE2S_MAX; lia)
              ltac:(unfold BLAKE2S_MIN, BLAKE2S_MAX; lia)) as [HC HD].
  cbn zeta in HC, HD. rewrite HC, HD. subst r1.
  destruct (for_le_add_code "blake2b" BLAKE2B_MIN ltac:(unfold BLAKE2B_MIN; lia)
              64 BLAKE2B_MIN BLAKE2B_MAX static_registry x ltac:(lia)
              ltac:(unfold BLAKE2B_MAX; lia)
              ltac:(unfold BLAKE2B_MIN, BLAKE2B_MAX; lia)) as [HC' HD'].
  cbn zeta in HC', HD'. rewrite HC', HD'. split; reflexivity.
Qed.

(** C9. After [init], code 0xb201 has the name [blake2b-8] and default
    length 1, code 0xb240 the name [blake2b-512] and default length 64,
    code 0xb241 the name [blake2s-8] and default length 1, code 0xb260 the
    name [blake2s-256] and default length 32.  In general the code at
    offset [k] of a family has the name [<family>-<(k+1)*8>] and the
    default length [k+1], for [k < 64] in the first family and [k < 32] in
    the second. *)
Theorem init_generated_families (k : Z) :
  (Codes registry !! 0xb201 = Some "blake2b-8" /\
   DefaultLengths registry !! 0xb201 = Some 1) /\
  (Codes registry !! 0xb240 = Some "blake2b-512" /\
   DefaultLengths registry !! 0xb240 = Some 64) /\
  (Codes registry !! 0xb241 = Some "blake2s-8" /\
   DefaultLengths registry !! 0xb241 = Some 1) /\
  (Codes registry !! 0xb260 = Some "blake2s-256" /\
   DefaultLengths registry !! 0xb260 = Some 32) /\
  (0 <= k < 64 ->
   Codes registry !! (BLAKE2B_MIN + k) = Some ("blake2b-" +:+ Go.fmt_d ((k + 1) * 8)) /\
   DefaultLengths registry !! (BLAKE2B_MIN + k) = Some (k + 1)) /\
  (0 <= k < 32 ->
   Codes registry !! (BLAKE2S_MIN + k) = Some ("blake2s-" +:+ Go.fmt_d ((k + 1) * 8)) /\
   DefaultLengths registry !! (BLAKE2S_MIN + k) = Some (k + 1)).
Proof.
  do 4 (split; [split; vm_compute; reflexivity |]).
  split; intros Hk.
  - destruct (registry_lookup (BLAKE2B_MIN + k)) as [-> ->].
    assert (Hs : (BLAKE2S_MIN <=? BLAKE2B_MIN + k) && (BLAKE2B_MIN + k <=? BLAKE2S_MAX)
                 = false).
    { apply andb_false_iff. left. apply Z.leb_gt.
      unfold BLAKE2S_MIN, BLAKE2B_MIN. lia. }
    assert (Hb : (BLAKE2B_MIN <=? BLAKE2B_MIN + k) && (BLAKE2B_MIN + k <=? BLAKE2B_MAX)
                 = true).
    { apply andb_true_iff. split; apply Z.leb_le;
        unfold BLAKE2B_MIN, BLAKE2B_MAX; lia. }
    rewrite Hs, Hb. unfold family_name.
    rewrite family_n_offset by lia.
    replace (BLAKE2B_MIN + k - BLAKE2B_MIN + 1) with (k + 1) by lia.
    rewrite wrap64_small by lia. split; reflexivity.
  - destruct (registry_lookup (BLAKE2S_MIN + k)) as [-> ->].
    assert (Hs : (BLAKE2S_MIN <=? BLAKE2S_MIN + k) && (BLAKE2S_MIN + k <=? BLAKE2S_MAX)
                 = true).
    { apply andb_true_iff. split; apply Z.leb_le;
        unfold BLAKE2S_MIN, BLAKE2S_MAX; lia. }
    rewrite Hs. unfold family_name.
    rewrite family_n_offset by lia.
    replace (BLAKE2S_MIN + k - BLAKE2S_MIN + 1) with (k + 1) by lia.
    rewrite wrap64_small by lia. split; reflexivity.
Qed.

Lemma init_generated_families_witness :
  (Codes registry !! (BLAKE2B_MIN + 31) = Some ("blake2b-" +:+ Go.fmt_d ((31 + 1) * 8)) /\
   DefaultLengths registry !! (BLAKE2B_MIN + 31) = Some (31 + 1)) /\
  (Codes registry !! (BLAKE2S_MIN + 31) = Some ("blake2s-" +:+ Go.fmt_d ((31 + 1) * 8)) /\
   DefaultLengths registry !! (BLAKE2S_MIN + 31) = Some (31 + 1)).
Proof.
  split.
  - apply (init_generated_families 31). lia.
  - apply (init_generated_families 31). lia.
Defined.

(** * Further properties of the codec *)

(** ** What [Cast] accepts and how it fails *)

Lemma Cast_cases (R : Registry) (buf : list byte) :
  (exists e, Decode R buf = Err e /\ Cast R buf = Err e) \/
  (exists dm, Decode R buf = Ok dm /\ ValidCode R (Code dm) = false /\
              Cast R buf = Err ErrUnknownCode) \/
  (exists dm, Decode R buf = Ok dm /\ ValidCode R (Code dm) = true /\
              Cast R buf = Ok buf).
Proof.
  unfold Cast. destruct (Decode R buf) as [dm | e |] eqn:Hd.
  - cbn. destruct (ValidCode R (Code dm)) eqn:Hv; cbn.
    + right; right. eauto.
    + right; left. eauto.
  - left. eauto.
  - destruct (Decode_cases R buf)
      as [[_ He] | [[_ He] | (b0 & b1 & digest & -> & _ & [[_ He] | [_ He]])]];
      rewrite He in Hd; discriminate Hd.
Qed.

Lemma Cast_no_panic (R : Registry) (buf : list byte) : Cast R buf <> Panic.
Proof.
  destruct (Cast_cases R buf)
    as [(e & _ & He) | [(dm & _ & _ & He) | (dm & _ & _ & He)]];
    rewrite He; discriminate.
Qed.

Lemma Cast_Ok_len (R : Registry) (buf m : list byte) :
  Cast R buf = Ok m -> m = buf /\ 3 <= Go.len buf <= 129.
Proof.
  intros Hc.
  destruct (Cast_cases R buf)
    as [(e & _ & He) | [(dm & _ & _ & He) | (dm & Hd & _ & Hok)]];
    try (rewrite He in Hc; discriminate Hc).
  rewrite Hok in Hc. injection Hc as <-. split; [reflexivity |].
  destruct (Decode_cases R buf)
    as [[_ He] | [[_ He] | (b0 & b1 & digest & -> & Hr & _)]];
    try (rewrite He in Hd; discriminate Hd).
  rewrite !len_cons. lia.
Qed.

(** X1. [Cast buf] succeeds exactly when the buffer has 3 to 129 bytes,
    its second byte equals the number of bytes after the header, and its
    first byte is a valid code; the value returned is then [buf] itself. *)
Theorem Cast_accepts_iff (R : Registry) (buf m : list byte) :
  Cast R buf = Ok m <->
  m = buf /\ 3 <= Go.len buf <= 129 /\
  exists b0 b1 : byte,
    buf !! 0%nat = Some b0 /\ buf !! 1%nat = Some b1 /\
    Go.int_of_byte b1 = Go.len buf - 2 /\
    ValidCode R (Go.int_of_byte b0) = true.
Proof.
  split.
  - intros Hc.
    destruct (Cast_cases R buf)
      as [(e & _ & He) | [(dm & _ & _ & He) | (dm & Hd & Hv & Hok)]];
      try (rewrite He in Hc; discriminate Hc).
    rewrite Hok in Hc. injection Hc as <-.
    destruct (Decode_cases R buf)
      as [[_ He] | [[_ He] | (b0 & b1 & digest & -> & Hr & [[Hl He] | [_ He]])]];
      rewrite He in Hd; try discriminate Hd.
    injection Hd as <-. cbn in Hv. rewrite !len_cons.
    split; [reflexivity |]. split; [lia |].
    exists b0, b1. repeat split; [lia | exact Hv].
  - intros (-> & Hlen & b0 & b1 & H0 & H1 & Hb1 & Hv).
    destruct (len_ge_3_inv buf ltac:(lia)) as (c0 & c1 & digest & -> & Hd & Hd1).
    cbn in H0, H1. injection H0 as ->. injection H1 as ->.
    unfold Cast. rewrite Decode_header by lia.
    destruct (Z.eqb_spec (Go.len digest) (Go.int_of_byte b1)) as [_ | Hne]; [| lia].
    cbn. rewrite Hv. reflexivity.
Qed.

Lemma Cast_accepts_iff_witness :
  Cast registry [x12; x02; x0a; x0b] = Ok [x12; x02; x0a; x0b].
Proof.
  apply (Cast_accepts_iff registry [x12; x02; x0a; x0b]).
  split; [reflexivity |]. split; [vm_compute; split; discriminate |].
  exists x12, x02. repeat split; vm_compute; reflexivity.
Defined.

(** X2. [Cast] never panics, and when it fails it fails either with the
    error of [Decode] on the same buffer, or with [ErrUnknownCode] on a
    buffer that decodes to a code that is not valid. *)
Theorem Cast_failure_modes (R : Registry) (buf : list byte) :
  Cast R buf <> Panic /\
  (forall e, Cast R buf = Err e ->
     Decode R buf = Err e \/
     (e = ErrUnknownCode /\
      exists dm, Decode R buf = Ok dm /\ ValidCode R (Code dm) = false)).
Proof.
  destruct (Cast_cases R buf)
    as [(e' & Hd & He) | [(dm & Hd & Hv & He) | (dm & Hd & Hv & He)]];
    rewrite He; (split; [discriminate |]); intros e Heq.
  - injection Heq as <-. left. exact Hd.
  - injection Heq as <-. right. eauto.
  - discriminate Heq.
Qed.

Lemma Cast_failure_modes_witness :
  Decode registry [x20; x01; x00] = Err ErrUnknownCode \/
  (ErrUnknownCode = ErrUnknownCode /\
   exists dm, Decode registry [x20; x01; x00] = Ok dm /\
              ValidCode registry (Code dm) = false).
Proof.
  apply (Cast_failure_modes registry [x20; x01; x00]).
  vm_compute. reflexivity.
Defined.

(** X3. A value returned by [Cast] is a fixed point of [Cast]: it decodes
    without error, its code is valid, and casting it again returns it. *)
Theorem Cast_result_is_valid (R : Registry) (buf m : list byte) :
  Cast R buf = Ok m ->
  Cast R m = Ok m /\
  exists dm, Decode R m = Ok dm /\ ValidCode R (Code dm) = true /\
             Go.len (Digest dm) = Length dm.
Proof.
  intros Hc.
  destruct (Cast_cases R buf)
    as [(e & _ & He) | [(dm & _ & _ & He) | (dm & Hd & Hv & Hok)]];
    try (rewrite He in Hc; discriminate Hc).
  rewrite Hok in Hc. injection Hc as <-. split; [exact Hok |].
  exists dm. split; [exact Hd |]. split; [exact Hv |].
  destruct (Decode_cases R buf)
    as [[_ He] | [[_ He] | (b0 & b1 & digest & -> & Hr & [[Hl He] | [_ He]])]];
    rewrite He in Hd; try discriminate Hd.
  injection Hd as <-. exact Hl.
Qed.

Lemma Cast_result_is_valid_witness :
  Cast registry [x05; x01; xff] = Ok [x05; x01; xff] /\
  exists dm, Decode registry [x05; x01; xff] = Ok dm /\
             ValidCode registry (Code dm) = true /\
             Go.len (Digest dm) = Length dm.
Proof.
  apply (Cast_result_is_valid registry [x05; x01; xff]).
  vm_compute. reflexivity.
Defined.

(** ** From a decoded value back to its bytes *)

(** X4. Encoding what [Decode] returned gives the buffer back: if
    [Decode buf] succeeds with a valid code, then [Encode] of the decoded
    digest under the decoded code is [buf]. *)
Theorem Encode_Decode_round_trip (R : Registry) (buf : list byte) (dm : DecodedMultihash) :
  Decode R buf = Ok dm -> ValidCode R (Code dm) = true ->
  Encode R (Digest dm) (Code dm) = Ok buf.
Proof.
  intros Hd Hv.
  destruct (Decode_cases R buf)
    as [[_ He] | [[_ He] | (b0 & b1 & digest & -> & Hr & [[Hl He] | [_ He]])]];
    rewrite He in Hd; try discriminate Hd.
  injection Hd as <-. cbn in Hv |- *.
  rewrite Encode_valid by (assumption || lia).
  rewrite Hl, !uint8_int_of_byte. reflexivity.
Qed.

Lemma Encode_Decode_round_trip_witness :
  Encode registry [xaa; xbb] 0x13 = Ok [x13; x02; xaa; xbb].
Proof.
  apply (Encode_Decode_round_trip registry [x13; x02; xaa; xbb]
           {| Code := 0x13; Name := "sha2-512"; Length := 2; Digest := [xaa; xbb] |}).
  - vm_compute. reflexivity.
  - vm_compute. reflexivity.
Defined.

(** ** What the one-byte code field loses *)

Lemma Encode_Ok_inv (R : Registry) (d out : list byte) (c : Z) :
  Encode R d c = Ok out ->
  ValidCode R c = true /\ Go.len d <= 127 /\
  out = Go.uint8 c :: Go.uint8 (Go.len d) :: d.
Proof.
  intros He. destruct (ValidCode R c) eqn:Hv.
  - destruct (Z_le_gt_dec (Go.len d) 127) as [Hle | Hgt].
    + rewrite Encode_valid in He by assumption. injection He as <-. auto.
    + rewrite Encode_too_long in He by assumption. discriminate He.
  - rewrite Encode_invalid in He by assumption. discriminate He.
Qed.

(** X5. [Cast] on the output of [Encode] for a non-empty digest looks
    only at the low byte of the code: it returns the output when
    [c mod 256] is a valid code and fails with [ErrUnknownCode] otherwise.
    So it succeeds for every valid code below 256, and can reject the
    encoding of a valid code above 255. *)
Theorem Cast_Encode (R : Registry) (d out : list byte) (c : Z) :
  Encode R d c = Ok out -> 1 <= Go.len d ->
  Cast R out = (if ValidCode R (c mod 256) then Ok out else Err ErrUnknownCode) /\
  (0 <= c < 256 -> Cast R out = Ok out).
Proof.
  intros He Hpos. apply Encode_Ok_inv in He as (Hv & Hlen & ->).
  assert (Hcast : Cast R (Go.uint8 c :: Go.uint8 (Go.len d) :: d) =
                  if ValidCode R (c mod 256)
                  then Ok (Go.uint8 c :: Go.uint8 (Go.len d) :: d)
                  else Err ErrUnknownCode).
  { unfold Cast. rewrite Decode_header by lia.
    rewrite !int_of_byte_uint8, (Z.mod_small (Go.len d)) by lia.
    rewrite Z.eqb_refl. cbn. rewrite int_of_byte_uint8.
    destruct (ValidCode R (c mod 256)); reflexivity. }
  split; [exact Hcast |].
  intros Hc. rewrite Hcast, Z.mod_small, Hv by lia. reflexivity.
Qed.

Lemma Cast_Encode_witness :
  Cast registry [x20; x01; x07] = Err ErrUnknownCode /\
  Cast registry [x12; x01; x07] = Ok [x12; x01; x07].
Proof.
  split.
  - apply (Cast_Encode registry [x07] [x20; x01; x07] 0xb220).
    + vm_compute. reflexivity.
    + vm_compute. discriminate.
  - apply (Cast_Encode registry [x07] [x12; x01; x07] SHA2_256).
    + vm_compute. reflexivity.
    + vm_compute. discriminate.
    + vm_compute. split; [discriminate | reflexivity].
Defined.

(** X6. Decoding an encoded non-empty digest returns the code reduced
    modulo 256 and the name registered for that reduced code; the code
    that was encoded comes back exactly when it lies in [0, 256). *)
Theorem Decode_Encode_code (R : Registry) (d : list byte) (c : Z) :
  ValidCode R c = true -> 1 <= Go.len d <= 127 ->
  exists dm, Encode R d c ≫= Decode R = Ok dm /\
             Code dm = c mod 256 /\
             Name dm = default "" (Codes R !! (c mod 256)) /\
             (Code dm = c <-> 0 <= c < 256).
Proof.
  intros Hv Hlen. eexists. split; [apply Decode_Encode; assumption |].
  cbn. split; [reflexivity |]. split; [reflexivity |].
  pose proof (Z.mod_pos_bound c 256 ltac:(lia)) as Hm. split.
  - intros Heq. lia.
  - intros Hc. apply Z.mod_small. exact Hc.
Qed.

Lemma Decode_Encode_code_witness :
  exists dm, Encode registry [x07] 0xb211 ≫= Decode registry = Ok dm /\
             Code dm = 0xb211 mod 256 /\
             Name dm = default "" (Codes registry !! (0xb211 mod 256)) /\
             (Code dm = 0xb211 <-> 0 <= 0xb211 < 256).
Proof.
  apply (Decode_Encode_code registry [x07] 0xb211).
  - vm_compute. reflexivity.
  - vm_compute. split; discriminate.
Defined.

(** X7. Two valid codes with the same low byte encode every digest to
    the same bytes. *)
Theorem Encode_code_collision (R : Registry) (d : list byte) (c c' : Z) :
  ValidCode R c = true -> ValidCode R c' = true -> c mod 256 = c' mod 256 ->
  Encode R d c = Encode R d c'.
Proof.
  intros Hv Hv' Hmod.
  assert (Hb : Go.uint8 c = Go.uint8 c') by (unfold Go.uint8; rewrite Hmod; reflexivity).
  destruct (Z_le_gt_dec (Go.len d) 127) as [Hle | Hgt].
  - rewrite !Encode_valid by assumption. rewrite Hb. reflexivity.
  - rewrite !Encode_too_long by assumption. reflexivity.
Qed.

Lemma Encode_code_collision_witness :
  Encode registry [x01; x02] 0xb211 = Encode registry [x01; x02] SHA1.
Proof.
  apply (Encode_code_collision registry [x01; x02] 0xb211 SHA1).
  - vm_compute. reflexivity.
  - vm_compute. reflexivity.
  - reflexivity.
Defined.

(** X8. The bytes returned by [Encode] determine the digest and the low
    byte of the code, and are two bytes longer than the digest. *)
Theorem Encode_injective (R : Registry) (d d' out : list byte) (c c' : Z) :
  Encode R d c = Ok out -> Encode R d' c' = Ok out ->
  d = d' /\ c mod 256 = c' mod 256 /\ Go.len out = Go.len d + 2.
Proof.
  intros He He'.
  apply Encode_Ok_inv in He as (_ & _ & ->).
  apply Encode_Ok_inv in He' as (_ & _ & Heq).
  injection Heq as Hc _ Hd. rewrite !len_cons.
  split; [exact Hd |]. split; [| lia].
  rewrite <- !int_of_byte_uint8, Hc. reflexivity.
Qed.

Lemma Encode_injective_witness :
  [x01; x02] = [x01; x02] /\ 0xb211 mod 256 = SHA1 mod 256 /\
  Go.len [x11; x02; x01; x02] = Go.len [x01; x02] + 2.
Proof.
  apply (Encode_injective registry [x01; x02] [x01; x02] [x11; x02; x01; x02]
           0xb211 SHA1).
  - vm_compute. reflexivity.
  - vm_compute. reflexivity.
Defined.

(** * Further properties of the registry *)

(** ** What [init] leaves alone *)

Lemma for_le_add_code_Names (family : string) (min : Z) (s : string) (fuel : nat) :
  forall (c hi : Z) (r : Registry),
    (forall x, family_name family min x <> s) ->
    Names (Go.for_le fuel c hi (add_code family min) r) !! s = Names r !! s.
Proof.
  induction fuel as [|fuel IH]; intros c hi r Hs; cbn [Go.for_le]; [reflexivity |].
  destruct (c <=? hi); [| reflexivity].
  rewrite IH by exact Hs. cbn [add_code Names].
  apply lookup_insert_ne, Hs.
Qed.

Lemma family_name_prefix (min x : Z) :
  String.prefix "blake2" (family_name "blake2b" min x) = true /\
  String.prefix "blake2" (family_name "blake2s" min x) = true.
Proof. split; reflexivity. Qed.

(** [registry_lookup] from any starting tables. *)
Lemma init_lookup (r : Registry) (x : Z) :
  Codes (init r) !! x =
    (if (BLAKE2S_MIN <=? x) && (x <=? BLAKE2S_MAX)
     then Some (family_name "blake2s" BLAKE2S_MIN x)
     else if (BLAKE2B_MIN <=? x) && (x <=? BLAKE2B_MAX)
     then Some (family_name "blake2b" BLAKE2B_MIN x)
     else Codes r !! x) /\
  DefaultLengths (init r) !! x =
    (if (BLAKE2S_MIN <=? x) && (x <=? BLAKE2S_MAX)
     then Some (family_n BLAKE2S_MIN x)
     else if (BLAKE2B_MIN <=? x) && (x <=? BLAKE2B_MAX)
     then Some (family_n BLAKE2B_MIN x)
     else DefaultLengths r !! x).
Proof.
  unfold init.
  set (r1 := Go.for_le 64 BLAKE2B_MIN BLAKE2B_MAX (add_code "blake2b" BLAKE2B_MIN) r).
  destruct (for_le_add_code "blake2s" BLAKE2S_MIN ltac:(unfold BLAKE2S_MIN; lia)
              32 BLAKE2S_MIN BLAKE2S_MAX r1 x ltac:(lia)
              ltac:(unfold BLAKE2S_MAX; lia)
              ltac:(unfold BLAKE2S_MIN, BLAKE2S_MAX; lia)) as [HC HD].
  cbn zeta in HC, HD. rewrite HC, HD. subst r1.
  destruct (for_le_add_code "blake2b" BLAKE2B_MIN ltac:(unfold BLAKE2B_MIN; lia)
              64 BLAKE2B_MIN BLAKE2B_MAX r x ltac:(lia)
              ltac:(unfold BLAKE2B_MAX; lia)
              ltac:(unfold BLAKE2B_MIN, BLAKE2B_MAX; lia)) as [HC' HD'].
  cbn zeta in HC', HD'. rewrite HC', HD'. split; reflexivity.
Qed.

(** X9. Whatever the three maps hold before [init] runs, [init] changes
    no entry of [Codes] or [DefaultLengths] for a code outside
    [0xb201 .. 0xb260], and no entry of [Names] for a name that does not
    start with [blake2]. *)
Theorem init_frame (r : Registry) (x : Z) (s : string) :
  (x < BLAKE2B_MIN \/ BLAKE2S_MAX < x ->
   Codes (init r) !! x = Codes r !! x /\
   DefaultLengths (init r) !! x = DefaultLengths r !! x) /\
  (String.prefix "blake2" s = false -> Names (init r) !! s = Names r !! s).
Proof.
  split.
  - intros Hx. destruct (init_lookup r x) as [-> ->].
    assert (Hs : (BLAKE2S_MIN <=? x) && (x <=? BLAKE2S_MAX) = false).
    { apply andb_false_iff. rewrite !Z.leb_gt.
      unfold BLAKE2B_MIN, BLAKE2S_MIN, BLAKE2S_MAX in *. lia. }
    assert (Hb : (BLAKE2B_MIN <=? x) && (x <=? BLAKE2B_MAX) = false).
    { apply andb_false_iff. rewrite !Z.leb_gt.
      unfold BLAKE2B_MIN, BLAKE2B_MAX, BLAKE2S_MAX in *. lia. }
    rewrite Hs, Hb. split; reflexivity.
  - intros Hp. unfold init.
    rewrite !for_le_add_code_Names; [reflexivity | |];
      intros c Heq; rewrite <- Heq in Hp;
      [ rewrite (proj1 (family_name_prefix BLAKE2B_MIN c)) in Hp
      | rewrite (proj2 (family_name_prefix BLAKE2S_MIN c)) in Hp ];
      discriminate Hp.
Qed.

Lemma init_frame_witness :
  (Codes (init static_registry) !! SHA3 = Codes static_registry !! SHA3 /\
   DefaultLengths (init static_registry) !! SHA3
   = DefaultLengths static_registry !! SHA3) /\
  Names (init static_registry) !! "sha3" = Names static_registry !! "sha3".
Proof.
  split.
  - apply (init_frame static_registry SHA3 "sha3"). left. vm_compute. reflexivity.
  - apply (init_frame static_registry SHA3 "sha3"). vm_compute. reflexivity.
Defined.

(** ** The codes the program accepts *)

Lemma static_Codes_is_Some (x : Z) :
  is_Some (Codes static_registry !! x) <->
  x = SHA1 \/ x = SHA2_256 \/ x = SHA2_512 \/ x = SHA3 \/ x = DBL_SHA2_256.
Proof.
  unfold static_registry. cbn [Codes].
  rewrite !lookup_insert, lookup_empty.
  repeat case_decide; subst; split; intros Hx;
    try (eexists; reflexivity); try tauto;
    try (destruct Hx as [? Hx']; discriminate Hx');
    intuition congruence.
Qed.

(** X10. After [init], [ValidCode c] holds exactly for [0 <= c < 16], for
    the five built-in codes 0x11, 0x12, 0x13, 0x14 and 0x56, and for
    [0xb201 <= c <= 0xb260]. *)
Theorem ValidCode_registry (c : Z) :
  ValidCode registry c = true <->
  0 <= c < 16 \/ 0x11 <= c <= 0x14 \/ c = 0x56 \/ 0xb201 <= c <= 0xb260.
Proof.
  rewrite ValidCode_true. destruct (registry_lookup c) as [-> _].
  destruct (Z.leb_spec BLAKE2S_MIN c) as [Hs1 | Hs1],
           (Z.leb_spec c BLAKE2S_MAX) as [Hs2 | Hs2],
           (Z.leb_spec BLAKE2B_MIN c) as [Hb1 | Hb1],
           (Z.leb_spec c BLAKE2B_MAX) as [Hb2 | Hb2];
    cbn [andb]; rewrite ?static_Codes_is_Some;
    unfold BLAKE2S_MIN, BLAKE2S_MAX, BLAKE2B_MIN, BLAKE2B_MAX,
           SHA1, SHA2_256, SHA2_512, SHA3, DBL_SHA2_256 in *;
    split; intros H;
    try (right; eexists; reflexivity);
    try lia;
    try (destruct H as [H | H]; [lia |]; try lia).
Qed.

Lemma ValidCode_registry_witness :
  ValidCode registry 0xb230 = true.
Proof.
  apply (ValidCode_registry 0xb230). right; right; right. lia.
Defined.

(** ** The three tables agree *)

Lemma registry_Codes_in_Names :
  map_Forall (fun c name => Names registry !! name = Some c) (Codes registry).
Proof. compute_done. Qed.

Lemma registry_Names_in_Codes :
  map_Forall (fun name c => Codes registry !! c = Some name) (Names registry).
Proof. compute_done. Qed.

Lemma registry_DefaultLengths_bounds :
  map_Forall (fun c l => 1 <= l <= 64 /\ is_Some (Codes registry !! c))
             (DefaultLengths registry).
Proof. compute_done. Qed.

Lemma registry_Codes_have_length :
  map_Forall (fun c _ => is_Some (DefaultLengths registry !! c)) (Codes registry).
Proof. compute_done. Qed.

(** X11. After [init], [Names] and [Codes] are inverse to each other: a
    code has a name in [Codes] exactly when that name has this code in
    [Names]; so no two codes share a name and no two names share a code. *)
Theorem registry_names_codes_inverse (c c' : Z) (name name' : string) :
  (Codes registry !! c = Some name <-> Names registry !! name = Some c) /\
  (Codes registry !! c = Some name -> Codes registry !! c' = Some name -> c = c') /\
  (Names registry !! name = Some c -> Names registry !! name' = Some c ->
   name = name').
Proof.
  pose proof registry_Codes_in_Names as HCN.
  pose proof registry_Names_in_Codes as HNC.
  split; [split; [apply HCN | apply HNC] |]. split.
  - intros H1 H2. apply HCN in H1, H2. congruence.
  - intros H1 H2. apply HNC in H1, H2. congruence.
Qed.

Lemma registry_names_codes_inverse_witness :
  Names registry !! "blake2s-256" = Some BLAKE2S_MAX.
Proof.
  apply (registry_names_codes_inverse BLAKE2S_MAX 0 "blake2s-256" "").
  vm_compute. reflexivity.
Defined.

(** X12. After [init], the codes with a default length are exactly the
    codes with a name, and every default length is between 1 and 64. *)
Theorem registry_default_lengths (c l : Z) :
  (is_Some (DefaultLengths registry !! c) <-> is_Some (Codes registry !! c)) /\
  (DefaultLengths registry !! c = Some l -> 1 <= l <= 64).
Proof.
  split; [split |].
  - intros [l' Hl]. apply registry_DefaultLengths_bounds in Hl. apply Hl.
  - intros [name Hc]. apply registry_Codes_have_length in Hc. exact Hc.
  - intros Hl. apply registry_DefaultLengths_bounds in Hl. apply Hl.
Qed.

Lemma registry_default_lengths_witness : 1 <= 20 <= 64.
Proof.
  apply (registry_default_lengths SHA1 20). vm_compute. reflexivity.
Defined.

(** X13. For every code with a default length, a digest of that length
    is accepted by [Encode], and decoding the result returns the digest
    and the length. *)
Theorem Encode_default_length (c l : Z) (d : list byte) :
  DefaultLengths registry !! c = Some l -> Go.len d = l ->
  exists out dm,
    Encode registry d c = Ok out /\ Decode registry out = Ok dm /\
    Digest dm = d /\ Length dm = l.
Proof.
  intros Hl Hd. apply registry_DefaultLengths_bounds in Hl as [Hb Hc].
  assert (Hv : ValidCode registry c = true) by (apply ValidCode_true; right; exact Hc).
  pose proof (Decode_Encode registry d c Hv ltac:(lia)) as Hrt.
  rewrite Encode_valid in Hrt |- * by (assumption || lia).
  do 2 eexists. split; [reflexivity |]. split; [exact Hrt |].
  split; [reflexivity | exact Hd].
Qed.

Lemma Encode_default_length_witness :
  exists out dm,
    Encode registry [x01; x02] (BLAKE2B_MIN + 1) = Ok out /\
    Decode registry out = Ok dm /\ Digest dm = [x01; x02] /\ Length dm = 2.
Proof.
  apply (Encode_default_length (BLAKE2B_MIN + 1) 2 [x01; x02]).
  - vm_compute. reflexivity.
  - reflexivity.
Defined.

(** ** [EncodeName] over the program's registry *)

Lemma registry_Names_valid (name : string) (c : Z) :
  Names registry !! name = Some c -> ValidCode registry c = true.
Proof.
  intros Hn. apply registry_Names_in_Codes in Hn.
  apply ValidCode_true. right. eauto.
Qed.

Lemma map_get_cases `{Countable K} {V} (zero : V) (m : gmap K V) (k : K) :
  (exists v, m !! k = Some v /\ Go.map_get zero m k = v) \/
  (m !! k = None /\ Go.map_get zero m k = zero).
Proof.
  unfold Go.map_get. destruct (m !! k) as [v|]; [left; eauto | right; auto].
Qed.

Lemma EncodeName_code_valid (name : string) :
  ValidCode registry (Go.map_get 0 (Names registry) name) = true.
Proof.
  destruct (map_get_cases 0 (Names registry) name) as [(c & Hn & Hg) | [Hn Hg]];
    rewrite Hg.
  - exact (registry_Names_valid name c Hn).
  - apply ValidCode_true. left. lia.
Qed.

(** X14. After [init], [EncodeName] fails for no name with
    [ErrUnknownCode]: for every name, registered or not, it succeeds when
    the digest has at most 127 bytes and fails with [ErrLenNotSupported]
    otherwise; for a registered name it is [Encode] under that name's
    code. *)
Theorem EncodeName_registry (d : list byte) (name : string) :
  EncodeName registry d name <> Err ErrUnknownCode /\
  (Go.len d <= 127 -> exists out, EncodeName registry d name = Ok out) /\
  (Go.len d > 127 -> EncodeName registry d name = Err ErrLenNotSupported) /\
  (forall c, Names registry !! name = Some c ->
             EncodeName registry d name = Encode registry d c).
Proof.
  pose proof (EncodeName_code_valid name) as Hv. unfold EncodeName.
  split; [| split; [| split]].
  - destruct (Z_le_gt_dec (Go.len d) 127) as [Hle | Hgt].
    + rewrite Encode_valid by assumption. discriminate.
    + rewrite Encode_too_long by assumption. discriminate.
  - intros Hle. eexists. apply Encode_valid; assumption.
  - intros Hgt. apply Encode_too_long; assumption.
  - intros c Hn.
    destruct (map_get_cases 0 (Names registry) name) as [(c' & Hn' & Hg) | [Hn' Hg]];
      rewrite Hg; [| rewrite Hn in Hn'; discriminate Hn'].
    rewrite Hn in Hn'. injection Hn' as <-. reflexivity.
Qed.

Lemma EncodeName_registry_witness :
  (exists out, EncodeName registry [x01] "sha2-256" = Ok out) /\
  EncodeName registry (replicate 128 x00) "sha2-256" = Err ErrLenNotSupported /\
  EncodeName registry [x01] "sha2-256" = Encode registry [x01] SHA2_256.
Proof.
  split; [| split].
  - apply (EncodeName_registry [x01] "sha2-256"). vm_compute. discriminate.
  - apply (EncodeName_registry (replicate 128 x00) "sha2-256").
    vm_compute. reflexivity.
  - apply (EncodeName_registry [x01] "sha2-256"). vm_compute. reflexivity.
Defined.

Lemma registry_family_Codes (k : Z) :
  (0 <= k < 64 ->
   Codes registry !! (BLAKE2B_MIN + k) = Some ("blake2b-" +:+ Go.fmt_d ((k + 1) * 8))) /\
  (0 <= k < 32 ->
   Codes registry !! (BLAKE2S_MIN + k) = Some ("blake2s-" +:+ Go.fmt_d ((k + 1) * 8))).
Proof.
  split; intros Hk.
  - destruct (registry_lookup (BLAKE2B_MIN + k)) as [-> _].
    assert (Hs : (BLAKE2S_MIN <=? BLAKE2B_MIN + k) && (BLAKE2B_MIN + k <=? BLAKE2S_MAX)
                 = false).
    { apply andb_false_iff. left. apply Z.leb_gt.
      unfold BLAKE2S_MIN, BLAKE2B_MIN. lia. }
    assert (Hb : (BLAKE2B_MIN <=? BLAKE2B_MIN + k) && (BLAKE2B_MIN + k <=? BLAKE2B_MAX)
                 = true).
    { apply andb_true_iff. split; apply Z.leb_le;
        unfold BLAKE2B_MIN, BLAKE2B_MAX; lia. }
    rewrite Hs, Hb. unfold family_name. rewrite family_n_offset by lia.
    replace (BLAKE2B_MIN + k - BLAKE2B_MIN + 1) with (k + 1) by lia.
    rewrite wrap64_small by lia. reflexivity.
  - destruct (registry_lookup (BLAKE2S_MIN + k)) as [-> _].
    assert (Hs : (BLAKE2S_MIN <=? BLAKE2S_MIN + k) && (BLAKE2S_MIN + k <=? BLAKE2S_MAX)
                 = true).
    { apply andb_true_iff. split; apply Z.leb_le;
        unfold BLAKE2S_MIN, BLAKE2S_MAX; lia. }
    rewrite Hs. unfold family_name. rewrite family_n_offset by lia.
    replace (BLAKE2S_MIN + k - BLAKE2S_MIN + 1) with (k + 1) by lia.
    rewrite wrap64_small by lia. reflexivity.
Qed.

(** X15. After [init], the generated names resolve to their codes: for
    [k < 64], [EncodeName] under [blake2b-<(k+1)*8>] is [Encode] under
    [0xb201 + k], and for [k < 32], [EncodeName] under
    [blake2s-<(k+1)*8>] is [Encode] under [0xb241 + k]. *)
Theorem EncodeName_generated (d : list byte) (k : Z) :
  (0 <= k < 64 ->
   Names registry !! ("blake2b-" +:+ Go.fmt_d ((k + 1) * 8)) = Some (BLAKE2B_MIN + k) /\
   EncodeName registry d ("blake2b-" +:+ Go.fmt_d ((k + 1) * 8))
   = Encode registry d (BLAKE2B_MIN + k)) /\
  (0 <= k < 32 ->
   Names registry !! ("blake2s-" +:+ Go.fmt_d ((k + 1) * 8)) = Some (BLAKE2S_MIN + k) /\
   EncodeName registry d ("blake2s-" +:+ Go.fmt_d ((k + 1) * 8))
   = Encode registry d (BLAKE2S_MIN + k)).
Proof.
  destruct (registry_family_Codes k) as [Hb Hs].
  split; intros Hk.
  - specialize (Hb Hk). apply registry_Codes_in_Names in Hb.
    split; [exact Hb |]. unfold EncodeName.
    destruct (map_get_cases 0 (Names registry)
                ("blake2b-" +:+ Go.fmt_d ((k + 1) * 8)))
      as [(c' & Hn' & Hg) | [Hn' Hg]];
      rewrite Hg; rewrite Hb in Hn'; [| discriminate Hn'].
    injection Hn' as <-. reflexivity.
  - specialize (Hs Hk). apply registry_Codes_in_Names in Hs.
    split; [exact Hs |]. unfold EncodeName.
    destruct (map_get_cases 0 (Names registry)
                ("blake2s-" +:+ Go.fmt_d ((k + 1) * 8)))
      as [(c' & Hn' & Hg) | [Hn' Hg]];
      rewrite Hg; rewrite Hs in Hn'; [| discriminate Hn'].
    injection Hn' as <-. reflexivity.
Qed.

Lemma EncodeName_generated_witness :
  (Names registry !! ("blake2b-" +:+ Go.fmt_d ((63 + 1) * 8)) = Some (BLAKE2B_MIN + 63) /\
   EncodeName registry [x01] ("blake2b-" +:+ Go.fmt_d ((63 + 1) * 8))
   = Encode registry [x01] (BLAKE2B_MIN + 63)) /\
  (Names registry !! ("blake2s-" +:+ Go.fmt_d ((0 + 1) * 8)) = Some (BLAKE2S_MIN + 0) /\
   EncodeName registry [x01] ("blake2s-" +:+ Go.fmt_d ((0 + 1) * 8))
   = Encode registry [x01] (BLAKE2S_MIN + 0)).
Proof.
  split.
  - apply (EncodeName_generated [x01] 63). lia.
  - apply (EncodeName_generated [x01] 0). lia.
Defined.

(** * Further properties of the text conversions *)

(** ** [FromHexString] *)

Lemma DecodeString_Ok_length (s : string) :
  (forall b, Hex.DecodeString s = Ok b -> String.length s = (2 * length b)%nat) /\
  (forall a b, Hex.DecodeString (String a s) = Ok b ->
               String.length (String a s) = (2 * length b)%nat).
Proof.
  induction s as [|q s [IH0 IH1]].
  - split.
    + intros b Hb. injection Hb as <-. reflexivity.
    + intros a b Hb. cbn in Hb. destruct (Hex.fromHexChar a); discriminate Hb.
  - split; [exact (IH1 q) |].
    intros a b Hb. cbn [Hex.DecodeString] in Hb.
    destruct (Hex.fromHexChar a) as [x|]; [| discriminate Hb].
    destruct (Hex.fromHexChar q) as [y|]; [| discriminate Hb].
    destruct (Hex.DecodeString s) as [dst | e |] eqn:Hs; cbn in Hb;
      try discriminate Hb.
    injection Hb as <-. specialize (IH0 dst eq_refl).
    cbn [String.length length]. rewrite IH0. lia.
Qed.

Lemma DecodeString_no_panic (s : string) :
  Hex.DecodeString s <> Panic /\ (forall a, Hex.DecodeString (String a s) <> Panic).
Proof.
  induction s as [|q s [IH0 IH1]].
  - split; [discriminate |].
    intros a. cbn. destruct (Hex.fromHexChar a); discriminate.
  - split; [apply IH1 |].
    intros a. cbn [Hex.DecodeString].
    destruct (Hex.fromHexChar a) as [x|]; [| discriminate].
    destruct (Hex.fromHexChar q) as [y|]; [| discriminate].
    destruct (Hex.DecodeString s) as [dst | e |]; cbn;
      [discriminate | discriminate | exfalso; apply IH0; reflexivity].
Qed.

(** X16. [FromHexString] never panics.  When it returns a value [m],
    the text is the hexadecimal form of [m] in either case, of
    [2 * len(m)] characters (6 to 258), and [m] is a value that [Cast]
    accepts and returns unchanged. *)
Theorem FromHexString_result (R : Registry) (s : string) :
  FromHexString R s <> Panic /\
  (forall m, FromHexString R s = Ok m ->
     Hex.DecodeString s = Ok m /\ Cast R m = Ok m /\
     String.length s = (2 * length m)%nat /\
     (6 <= String.length s <= 258)%nat).
Proof.
  unfold FromHexString.
  destruct (Hex.DecodeString s) as [b | e |] eqn:Hs; cbn.
  - split; [apply Cast_no_panic |].
    intros m Hc. destruct (Cast_Ok_len R b m Hc) as [-> Hlen].
    pose proof (proj1 (DecodeString_Ok_length s) b Hs) as Hl.
    unfold Go.len in Hlen.
    split; [reflexivity |]. split; [exact Hc |]. split; [exact Hl | lia].
  - split; [discriminate |]. intros m Hm. discriminate Hm.
  - exfalso. apply (proj1 (DecodeString_no_panic s)). exact Hs.
Qed.

Lemma FromHexString_result_witness :
  Hex.DecodeString "1203AABBCC" = Ok [x12; x03; xaa; xbb; xcc] /\
  Cast registry [x12; x03; xaa; xbb; xcc] = Ok [x12; x03; xaa; xbb; xcc] /\
  String.length "1203AABBCC" = (2 * length [x12; x03; xaa; xbb; xcc])%nat /\
  (6 <= String.length "1203AABBCC" <= 258)%nat.
Proof.
  apply (FromHexString_result registry "1203AABBCC").
  vm_compute. reflexivity.
Defined.

(** ** [B58String] and [FromB58String] *)

Section B58Facts.

Variable b58_Encode : list byte -> string.
Variable b58_Decode : string -> option (list byte).
Variable R : Registry.

Lemma FromB58String_decoded (s : string) (b : list byte) :
  b58_Decode s = Some b ->
  FromB58String_body b58_Decode R s =
    if Go.len b =? 0 then Err ErrInvalidMultihash else Cast R b.
Proof. intros Hb. unfold FromB58String_body. rewrite Hb. reflexivity. Qed.

(** X17. If the base-58 decoder gives back the bytes that the encoder
    was given, then for every value [v] that [Cast] accepts,
    [FromB58String (B58String v)] returns [v]. *)
Theorem B58_round_trip (v m : Multihash) :
  b58_Decode (b58_Encode v) = Some v ->
  Cast R v = Ok m ->
  FromB58String b58_Decode R (B58String b58_Encode v) = Returned v.
Proof.
  intros Hrt Hc. destruct (Cast_Ok_len R v m Hc) as [-> Hlen].
  unfold FromB58String, B58String.
  rewrite (FromB58String_decoded _ _ Hrt).
  destruct (Z.eqb_spec (Go.len v) 0) as [H0 | _]; [lia |].
  rewrite Hc. reflexivity.
Qed.

(** X18. The deferred handler of [FromB58String] fires only when the
    base-58 decoder panics, since nothing after it can panic.  A returned
    value is the decoder's non-empty output and is accepted by [Cast]; an
    empty output is rejected with [ErrInvalidMultihash] before [Cast]
    runs, and every other failure is the error of [Cast] on the decoder's
    output. *)
Theorem FromB58String_outcomes (s : string) :
  (FromB58String b58_Decode R s = Recovered <-> b58_Decode s = None) /\
  (forall m, FromB58String b58_Decode R s = Returned m ->
     b58_Decode s = Some m /\ Cast R m = Ok m /\ 3 <= Go.len m <= 129) /\
  (b58_Decode s = Some [] ->
   FromB58String b58_Decode R s = Failed ErrInvalidMultihash) /\
  (forall e, FromB58String b58_Decode R s = Failed e ->
     exists b, b58_Decode s = Some b /\
               ((b = [] /\ e = ErrInvalidMultihash) \/
                (b <> [] /\ Cast R b = Err e))).
Proof.
  unfold FromB58String.
  destruct (b58_Decode s) as [b|] eqn:Hb.
  - rewrite (FromB58String_decoded _ _ Hb).
    destruct (Z.eqb_spec (Go.len b) 0) as [H0 | Hne].
    + apply len_nil_inv in H0 as ->.
      split; [split; discriminate |]. split; [intros m Hm; discriminate Hm |].
      split; [reflexivity |].
      intros e He. injection He as <-. exists []. auto.
    + assert (Hnil : b <> []) by (intros ->; apply Hne; reflexivity).
      pose proof (Cast_no_panic R b) as Hnp.
      destruct (Cast R b) as [m' | e' |] eqn:Hc; [| | contradiction].
      * destruct (Cast_Ok_len R b m' Hc) as [-> Hlen].
        split; [split; discriminate |]. split.
        { intros m Hm. injection Hm as <-. auto. }
        split; [intros Hempty; congruence |]. intros e He. discriminate He.
      * split; [split; discriminate |]. split; [intros m Hm; discriminate Hm |].
        split; [intros Hempty; congruence |].
        intros e He. injection He as <-. exists b. auto.
  - unfold FromB58String_body. rewrite Hb.
    split; [split; reflexivity |]. split; [intros m Hm; discriminate Hm |].
    split; [intros Hempty; discriminate Hempty |]. intros e He. discriminate He.
Qed.

End B58Facts.

Lemma B58_round_trip_witness :
  FromB58String (fun s => Some (list_byte_of_string s)) registry
    (B58String string_of_list_byte [x12; x01; xff])
  = Returned [x12; x01; xff].
Proof.
  apply (B58_round_trip string_of_list_byte (fun s => Some (list_byte_of_string s))
           registry [x12; x01; xff] [x12; x01; xff]).
  - vm_compute. reflexivity.
  - vm_compute. reflexivity.
Defined.

Lemma FromB58String_outcomes_witness :
  FromB58String (fun s => Some (list_byte_of_string s)) registry ""
  = Failed ErrInvalidMultihash.
Proof.
  apply (FromB58String_outcomes (fun s => Some (list_byte_of_string s)) registry "").
  reflexivity.
Defined.

(** * Further properties of [Decode] *)

Lemma Decode_Ok_inv (R : Registry) (buf : list byte) (dm : DecodedMultihash) :
  Decode R buf = Ok dm ->
  exists b0 b1 digest,
    buf = b0 :: b1 :: digest /\ dm = decoded R b0 b1 digest /\
    1 <= Go.len digest <= 127 /\ Go.len digest = Go.int_of_byte b1.
Proof.
  intros Hd.
  destruct (Decode_cases R buf)
    as [[_ He] | [[_ He] | (b0 & b1 & digest & -> & Hr & [[Hl He] | [_ He]])]];
    rewrite He in Hd; try discriminate Hd.
  injection Hd as <-. exists b0, b1, digest. auto.
Qed.

(** X19. A decoded value keeps everything that was in the buffer: if
    [Decode buf] succeeds, then [buf] is the byte of [Code], the byte of
    [Length], and [Digest]; and the same buffer decodes to the same code,
    length and digest whatever the registry holds. *)
Theorem Decode_lossless (R R' : Registry) (buf : list byte) (dm : DecodedMultihash) :
  Decode R buf = Ok dm ->
  buf = Go.uint8 (Code dm) :: Go.uint8 (Length dm) :: Digest dm /\
  exists dm', Decode R' buf = Ok dm' /\ Code dm' = Code dm /\
              Length dm' = Length dm /\ Digest dm' = Digest dm.
Proof.
  intros Hd. apply Decode_Ok_inv in Hd as (b0 & b1 & digest & -> & -> & Hr & Hl).
  cbn [decoded Code Length Digest]. rewrite !uint8_int_of_byte.
  split; [reflexivity |].
  exists (decoded R' b0 b1 digest). rewrite Decode_header by exact Hr.
  rewrite Hl, Z.eqb_refl. repeat split.
Qed.

Lemma Decode_lossless_witness :
  [x11; x02; x0a; x0b] = [Go.uint8 0x11; Go.uint8 2; x0a; x0b] /\
  exists dm', Decode static_registry [x11; x02; x0a; x0b] = Ok dm' /\
              Code dm' = 0x11 /\ Length dm' = 2 /\ Digest dm' = [x0a; x0b].
Proof.
  apply (Decode_lossless registry static_registry [x11; x02; x0a; x0b]
           {| Code := 0x11; Name := "sha1"; Length := 2; Digest := [x0a; x0b] |}).
  vm_compute. reflexivity.
Defined.

Lemma registry_low_code_name (c : Z) :
  0 <= c <= 255 ->
  Go.map_get "" (Codes registry) c = Go.map_get "" (Codes static_registry) c /\
  In (Go.map_get "" (Codes static_registry) c)
     [""; "sha1"; "sha2-256"; "sha2-512"; "sha3"; "dbl-sha2-256"].
Proof.
  intros Hc. split.
  - unfold Go.map_get. destruct (registry_lookup c) as [-> _].
    assert (Hs : (BLAKE2S_MIN <=? c) && (c <=? BLAKE2S_MAX) = false).
    { apply andb_false_iff. left. apply Z.leb_gt. unfold BLAKE2S_MIN. lia. }
    assert (Hb : (BLAKE2B_MIN <=? c) && (c <=? BLAKE2B_MAX) = false).
    { apply andb_false_iff. left. apply Z.leb_gt. unfold BLAKE2B_MIN. lia. }
    rewrite Hs, Hb. reflexivity.
  - unfold Go.map_get, static_registry. cbn [Codes].
    rewrite !lookup_insert, lookup_empty.
    repeat case_decide; cbn; tauto.
Qed.

(** X20. After [init], no buffer decodes to a generated code or name:
    whenever [Decode buf] succeeds, [Code] is below [0xb201] and [Name] is
    the empty string or one of the five built-in names. *)
Theorem Decode_never_generated (buf : list byte) (dm : DecodedMultihash) :
  Decode registry buf = Ok dm ->
  Code dm < BLAKE2B_MIN /\
  In (Name dm) [""; "sha1"; "sha2-256"; "sha2-512"; "sha3"; "dbl-sha2-256"].
Proof.
  intros Hd. apply Decode_Ok_inv in Hd as (b0 & b1 & digest & -> & -> & _ & _).
  pose proof (int_of_byte_range b0) as Hb0.
  destruct (registry_low_code_name (Go.int_of_byte b0) Hb0) as [Heq Hin].
  cbn [decoded Code Name]. rewrite Heq.
  split; [unfold BLAKE2B_MIN; lia | exact Hin].
Qed.

Lemma Decode_never_generated_witness :
  0x01 < BLAKE2B_MIN /\
  In "" [""; "sha1"; "sha2-256"; "sha2-512"; "sha3"; "dbl-sha2-256"].
Proof.
  apply (Decode_never_generated [x01; x01; x07]
           {| Code := 0x01; Name := ""; Length := 1; Digest := [x07] |}).
  vm_compute. reflexivity.
Defined.

(** X21. After [init], a decoded value with a non-empty name encodes
    back by that name: if [Decode buf] succeeds and [Name] is not empty,
    then [EncodeName] of the decoded digest under the decoded name
    returns [buf]. *)
Theorem EncodeName_Decode_round_trip (buf : list byte) (dm : DecodedMultihash) :
  Decode registry buf = Ok dm -> Name dm <> "" ->
  EncodeName registry (Digest dm) (Name dm) = Ok buf.
Proof.
  intros Hd Hname.
  apply Decode_Ok_inv in Hd as (b0 & b1 & digest & -> & -> & Hr & Hl).
  cbn [decoded Name Digest] in *.
  destruct (map_get_cases "" (Codes registry) (Go.int_of_byte b0))
    as [(name & Hc & Hg) | [_ Hg]]; rewrite Hg in *; [| contradiction].
  pose proof (registry_Codes_in_Names _ _ Hc) as Hn.
  unfold EncodeName.
  destruct (map_get_cases 0 (Names registry) name) as [(c & Hn' & Hg') | [Hn' Hg']];
    rewrite Hg'; rewrite Hn in Hn'; [| discriminate Hn'].
  injection Hn' as <-.
  rewrite Encode_valid by (lia || (apply ValidCode_true; right; eauto)).
  rewrite Hl, !uint8_int_of_byte. reflexivity.
Qed.

Lemma EncodeName_Decode_round_trip_witness :
  EncodeName registry [x0a; x0b] "sha2-256" = Ok [x12; x02; x0a; x0b].
Proof.
  apply (EncodeName_Decode_round_trip [x12; x02; x0a; x0b]
           {| Code := 0x12; Name := "sha2-256"; Length := 2; Digest := [x0a; x0b] |}).
  - vm_compute. reflexivity.
  - discriminate.
Defined.
